(** * redlog: a Redis-compatible logger (tidwall/redlog)

    A shallow embedding of [redlog.go] and of the variant of the same
    package that has no hierarchy, together with the properties of the
    filter / format / duplicate-suppression pipeline and of the logger
    hierarchy.

    Conventions.
    - A Go [string] and a Go [[]byte] are both a [gostring], a list of bytes.
    - A Go [int] is a [Z]; none of the arithmetic of the package can overflow
      (it is [idx+1] on an index and comparisons of levels); the one
      saturating operation, [Time.Sub], has its bounds written out.
    - The clock ([time.Now]), the process id ([os.Getpid]) and the terminal
      test ([terminal.IsTerminal]) are inputs.
    - An [io.Writer] is a record that logs the calls it receives and answers
      each with a byte count and an error.
    - A panic is the answer [None]: an index out of the range of a table in
      the variant without a hierarchy, an index or a slice out of the
      bounds of a string in the checked reading of the filter. *)

From Stdlib Require Import ZArith List Ascii String Bool Lia.
From Stdlib Require Import DecimalString.
Import ListNotations.

Local Open Scope Z_scope.
Local Open Scope list_scope.

(** ** Go strings *)

Definition gostring : Type := list ascii.

Definition str (s : String.string) : gostring := list_ascii_of_string s.

Definition len (s : gostring) : Z := Z.of_nat (List.length s).

(** Control bytes that have no printable literal. *)
Definition TAB : ascii := "009"%char.
Definition LF  : ascii := "010"%char.
Definition VT  : ascii := "011"%char.
Definition FF  : ascii := "012"%char.
Definition CR  : ascii := "013"%char.
Definition ESC : ascii := "027"%char.
Definition SP  : ascii := " "%char.
Definition NUL : ascii := "000"%char.

Definition gostring_eqb (a b : gostring) : bool :=
  if list_eq_dec ascii_dec a b then true else false.

(** ** Package [strings] *)

Module strings.

(** [strings.IndexByte]: index of the first [c] in [s], or -1. *)
Fixpoint IndexByte (s : gostring) (c : ascii) : Z :=
  match s with
  | [] => -1
  | x :: s' =>
      if Ascii.eqb x c then 0
      else let i := IndexByte s' c in if i =? -1 then -1 else i + 1
  end.

(** The six ASCII bytes of the table [asciiSpace]. *)
Definition asciiSpace (c : ascii) : bool :=
  Ascii.eqb c TAB || Ascii.eqb c LF || Ascii.eqb c VT ||
  Ascii.eqb c FF || Ascii.eqb c CR || Ascii.eqb c SP.

(** UTF-8 encodings of the white-space runes above U+007F that
    [unicode.IsSpace] accepts: U+0085, U+00A0 (two bytes); U+1680,
    U+2000..U+200A, U+2028, U+2029, U+202F, U+205F, U+3000 (three bytes). *)
Definition space2 (b1 b2 : ascii) : bool :=
  Ascii.eqb b1 "194" && (Ascii.eqb b2 "133" || Ascii.eqb b2 "160").

Definition space3 (b1 b2 b3 : ascii) : bool :=
  (Ascii.eqb b1 "225" && (Ascii.eqb b2 "154" && Ascii.eqb b3 "128")) ||
  (Ascii.eqb b1 "226" && (Ascii.eqb b2 "128" &&
     ((128 <=? nat_of_ascii b3)%nat && (nat_of_ascii b3 <=? 138)%nat
      || Ascii.eqb b3 "168" || Ascii.eqb b3 "169" || Ascii.eqb b3 "175"))) ||
  (Ascii.eqb b1 "226" && (Ascii.eqb b2 "129" && Ascii.eqb b3 "159")) ||
  (Ascii.eqb b1 "227" && (Ascii.eqb b2 "128" && Ascii.eqb b3 "128")).

(** [TrimLeftFunc(s, unicode.IsSpace)]: drop leading white-space runes. *)
Fixpoint TrimLeftSpace (s : gostring) : gostring :=
  match s with
  | [] => []
  | b1 :: s1 =>
      if asciiSpace b1 then TrimLeftSpace s1
      else match s1 with
           | [] => s
           | b2 :: s2 =>
               if space2 b1 b2 then TrimLeftSpace s2
               else match s2 with
                    | [] => s
                    | b3 :: s3 =>
                        if space3 b1 b2 b3 then TrimLeftSpace s3 else s
                    end
           end
  end.

(** The same on the reversed string: [r] lists the bytes from the last
    one backwards, so a trailing rune [b1 b2 b3] is seen as [b3; b2; b1]. *)
Fixpoint dropSpaceRev (r : gostring) : gostring :=
  match r with
  | [] => []
  | b3 :: r1 =>
      if asciiSpace b3 then dropSpaceRev r1
      else match r1 with
           | [] => r
           | b2 :: r2 =>
               if space2 b2 b3 then dropSpaceRev r2
               else match r2 with
                    | [] => r
                    | b1 :: r3 =>
                        if space3 b1 b2 b3 then dropSpaceRev r3 else r
                    end
           end
  end.

(** [TrimRightFunc(s, unicode.IsSpace)]. *)
Definition TrimRightSpace (s : gostring) : gostring :=
  rev (dropSpaceRev (rev s)).

(** [strings.TrimSpace]: its ASCII fast path and its fall-back compute
    [TrimFunc(s, unicode.IsSpace)], left side first. *)
Definition TrimSpace (s : gostring) : gostring :=
  TrimRightSpace (TrimLeftSpace s).

(** [genSplit] for a one-byte separator, the only kind the package uses:
    [cuts] is the number of separators that may still be consumed. *)
Fixpoint genSplit (cuts : nat) (sep : ascii) (s : gostring) : list gostring :=
  match s with
  | [] => [[]]
  | c :: s' =>
      match cuts with
      | O => [s]
      | S k =>
          if Ascii.eqb c sep then [] :: genSplit k sep s'
          else match genSplit cuts sep s' with
               | p :: ps => (c :: p) :: ps
               | [] => [[c]]
               end
      end
  end.

(** [strings.SplitN(s, sep, n)]: nothing for [n = 0], every piece for
    [n < 0], otherwise at most [n] pieces, the last one unsplit. *)
Definition SplitN (s : gostring) (sep : ascii) (n : Z) : list gostring :=
  if n =? 0 then []
  else if n <? 0 then genSplit (List.length s) sep s
  else genSplit (Z.to_nat (n - 1)) sep s.

Definition Split (s : gostring) (sep : ascii) : list gostring :=
  SplitN s sep (-1).

(** [strings.Join]. *)
Fixpoint Join (parts : list gostring) (sep : gostring) : gostring :=
  match parts with
  | [] => []
  | [p] => p
  | p :: ps => p ++ sep ++ Join ps sep
  end.

(** [s] begins with [p]: on success the rest of [s]. *)
Fixpoint stripPrefix (p s : gostring) : option gostring :=
  match p, s with
  | [], _ => Some s
  | _ :: _, [] => None
  | a :: p', b :: s' => if Ascii.eqb a b then stripPrefix p' s' else None
  end.

(** [strings.Replace(s, old, new, 1)] for a non-empty [old]: the first
    occurrence only. *)
Fixpoint Replace1 (s old new : gostring) : gostring :=
  match stripPrefix old s with
  | Some rest => new ++ rest
  | None => match s with
            | [] => []
            | c :: s' => c :: Replace1 s' old new
            end
  end.

End strings.

(** ** Package [fmt] *)

Module fmt.

(** The verb [%d] on an [int]: decimal digits, with a sign when negative. *)
Definition itoa (z : Z) : gostring := str (NilZero.string_of_int (Z.to_int z)).

(** The verb [%c] on a byte: the UTF-8 encoding of the rune with that
    value, one byte below 0x80 and two bytes from 0x80 on. *)
Definition fmtC (c : ascii) : gostring :=
  let n := nat_of_ascii c in
  if (n <? 128)%nat then [c]
  else [ascii_of_nat (192 + n / 64); ascii_of_nat (128 + n mod 64)].

End fmt.

(** ** Package [time] *)

Module time.

Inductive Month : Type :=
| January | February | March | April | May | June
| July | August | September | October | November | December.

(** A [time.Time]: the instant, in nanoseconds since the zero Time, and
    the calendar fields its location gives it. *)
Record Time : Type := mkTime {
  instant : Z;
  tMonth : Month;
  tDay : Z;
  tHour : Z;
  tMinute : Z;
  tSecond : Z;
  tNanosecond : Z
}.

(** The zero value [time.Time{}]: January 1, year 1, 00:00:00 UTC. *)
Definition zero : Time := mkTime 0 January 1 0 0 0 0.

Definition IsZero (t : Time) : bool := instant t =? 0.

(** A [time.Duration] counts nanoseconds in an [int64]. *)
Definition Millisecond : Z := 1000000.
Definition maxDuration : Z := 2 ^ 63 - 1.
Definition minDuration : Z := - 2 ^ 63.

(** [t.Sub(u)]: the difference, saturated to the range of a Duration. *)
Definition Sub (t u : Time) : Z :=
  let d := instant t - instant u in
  if d <? minDuration then minDuration
  else if maxDuration <? d then maxDuration
  else d.

(** The decimal digits of the absolute value of [x]. *)
Definition digits (x : Z) : gostring :=
  str (NilZero.string_of_uint (N.to_uint (Z.abs_N x))).

(** [appendInt(b, x, width)]: a sign when negative, then the digits,
    padded with zeros to [width]. *)
Definition appendInt (x : Z) (width : nat) : gostring :=
  (if x <? 0 then str "-" else []) ++
  repeat "0"%char (width - List.length (digits x)) ++ digits x.

(** The first three letters of [Month.String()]. *)
Definition monthAbbrev (m : Month) : gostring :=
  match m with
  | January => str "Jan" | February => str "Feb" | March => str "Mar"
  | April => str "Apr" | May => str "May" | June => str "Jun"
  | July => str "Jul" | August => str "Aug" | September => str "Sep"
  | October => str "Oct" | November => str "Nov" | December => str "Dec"
  end.

(** [t.Format("02 Jan 15:04:05.000")]: the fraction is the first three
    of the nine digits of the nanosecond. *)
Definition Format (t : Time) : gostring :=
  appendInt (tDay t) 2 ++ [SP] ++ monthAbbrev (tMonth t) ++ [SP] ++
  appendInt (tHour t) 2 ++ str ":" ++ appendInt (tMinute t) 2 ++ str ":" ++
  appendInt (tSecond t) 2 ++ str "." ++
  appendInt ((tNanosecond t / 1000000) mod 1000) 3.

(** What the package [time] guarantees of the fields of a Time. *)
Definition validTime (t : Time) : Prop :=
  1 <= tDay t <= 31 /\ 0 <= tHour t < 24 /\ 0 <= tMinute t < 60 /\
  0 <= tSecond t < 60 /\ 0 <= tNanosecond t < 1000000000.

End time.

(** ** Package [io] *)

Module io.

(** A Go [error]; [None] is [nil]. *)
Definition error : Type := option gostring.

(** An [io.Writer]: the arguments of the [Write] calls it has received,
    oldest first, the answer it gives to a call after a given history,
    and whether it is an [*os.File] open on a terminal. *)
Record Writer : Type := mkWriter {
  received : list gostring;
  answer : list gostring -> gostring -> Z * error;
  isTerminal : bool
}.

Definition Write (w : Writer) (p : gostring) : Writer * (Z * error) :=
  (mkWriter (received w ++ [p]) (answer w) (isTerminal w),
   answer w (received w) p).

(** [io.WriteString(w, s)]. *)
Definition WriteString (w : Writer) (s : gostring) : Writer * (Z * error) :=
  Write w s.

(** A [bytes.Buffer]: accepts everything. *)
Definition Buffer : Writer := mkWriter [] (fun _ p => (len p, None)) false.

(** A terminal that accepts everything. *)
Definition Terminal : Writer := mkWriter [] (fun _ p => (len p, None)) true.

(** A writer whose every [Write] fails, as a closed file does. *)
Definition Closed : Writer :=
  mkWriter [] (fun _ _ => (0, Some (str "file already closed"))) false.

End io.

(** ** [redlog.go] *)

Module redlog.

Import strings.

(** [type logLevel int] *)
Definition logLevel : Type := Z.

Definition logLevelDebug : logLevel := 0.
Definition logLevelVerbose : logLevel := 1.
Definition logLevelNotice : logLevel := 2.
Definition logLevelWarning : logLevel := 3.

(** [func (level logLevel) String() string] *)
Definition String (level : logLevel) : gostring :=
  if level =? logLevelDebug then str "."
  else if level =? logLevelVerbose then str "-"
  else if level =? logLevelNotice then str "*"
  else if level =? logLevelWarning then str "#"
  else str "?".

(** The type of the field [filter]. *)
Definition Filter : Type := gostring -> bool -> gostring * ascii * logLevel.

(** The fields of the [Logger] made by [New]; [filter = None] is the nil
    function.  The lock [mu] has no counterpart: calls are executed one
    after the other.  The field [parent] is carried by [LoggerPtr]. *)
Record Logger : Type := mkLogger {
  wr : io.Writer;
  level : logLevel;
  tty : bool;
  pid : Z;
  app : ascii;
  filter : option Filter;
  idups : bool;
  last : gostring;
  lastt : time.Time
}.

(** A [*Logger].  [root] is the logger made by [New], whose fields are the
    [Logger] record that every operation takes and returns.  [node parent a]
    is a logger made by [Sub]: of its fields only [parent] and [app] are
    ever set or read, since each method tests [l.parent != nil] first. *)
Inductive LoggerPtr : Type :=
| root : LoggerPtr
| node (parent : LoggerPtr) (napp : ascii) : LoggerPtr.

(** [l.app] *)
Definition appOf (l : LoggerPtr) (st : Logger) : ascii :=
  match l with
  | root => app st
  | node _ a => a
  end.

(** [istty]: [wr] is an [*os.File] and that file is a terminal. *)
Definition istty (w : io.Writer) : bool := io.isTerminal w.

(** [New(wr)]; [getpid] is the value of [os.Getpid()]. *)
Definition New (w : io.Writer) (getpid : Z) : Logger :=
  mkLogger w logLevelNotice (istty w) getpid "M"%char None false [] time.zero.

(** [l.Sub(app)] *)
Definition Sub (l : LoggerPtr) (a : ascii) : LoggerPtr := node l a.

(** [l.SetIgnoreDups(t)] *)
Fixpoint SetIgnoreDups (l : LoggerPtr) (t : bool) (st : Logger) : Logger :=
  match l with
  | node parent _ => SetIgnoreDups parent t st
  | root =>
      mkLogger (wr st) (level st) (tty st) (pid st) (app st) (filter st)
               t (last st) (lastt st)
  end.

(** [l.SetLevel(level)] *)
Fixpoint SetLevel (l : LoggerPtr) (lv : Z) (st : Logger) : Logger :=
  match l with
  | node parent _ => SetLevel parent lv st
  | root =>
      let lv := if lv <? logLevelDebug then logLevelDebug
                else if logLevelWarning <? lv then logLevelWarning
                else lv in
      mkLogger (wr st) lv (tty st) (pid st) (app st) (filter st)
               (idups st) (last st) (lastt st)
  end.

(** [l.doesAccept(level)] *)
Fixpoint doesAccept (l : LoggerPtr) (lv : logLevel) (st : Logger) : bool :=
  match l with
  | node parent _ => doesAccept parent lv st
  | root => level st <=? lv
  end.

(** [l.SetFilter(filter)] *)
Fixpoint SetFilter (l : LoggerPtr) (f : option Filter) (st : Logger) : Logger :=
  match l with
  | node parent _ => SetFilter parent f st
  | root =>
      mkLogger (wr st) (level st) (tty st) (pid st) (app st) f
               (idups st) (last st) (lastt st)
  end.

(** The colour chosen by the [switch parts[4]] of [write]. *)
Definition colorOf (glyph : gostring) : gostring :=
  if gostring_eqb glyph (str ".") then ESC :: str "[35m"
  else if gostring_eqb glyph (str "-") then []
  else if gostring_eqb glyph (str "*") then ESC :: str "[1m"
  else if gostring_eqb glyph (str "#") then ESC :: str "[33m"
  else [].

Definition colorReset : gostring := ESC :: str "[0m".

(** [parts[i] = v] *)
Fixpoint setIndex (i : nat) (v : gostring) (parts : list gostring) : list gostring :=
  match parts, i with
  | [], _ => []
  | _ :: ps, O => v :: ps
  | p :: ps, S j => p :: setIndex j v ps
  end.

(** The [if l.tty] block of [write]: colour the fifth field. *)
Definition colorize6 (msg : gostring) : gostring :=
  let parts := SplitN msg SP 6 in
  let color := colorOf (nth 4 parts []) in
  if negb (gostring_eqb color []) then
    Join (setIndex 4 (color ++ nth 4 parts [] ++ colorReset) parts) [SP]
  else msg.

(** [l.write(msg)], on the root; the result of [io.WriteString] is dropped. *)
Definition write (st : Logger) (msg : gostring) : Logger :=
  let msg := if tty st then colorize6 msg else msg in
  let w := fst (io.WriteString (wr st) (TrimSpace msg ++ [LF])) in
  mkLogger w (level st) (tty st) (pid st) (app st) (filter st)
           (idups st) (last st) (lastt st).

(** [fmt.Sprintf("%d:%c %s %s %s\n", pid, app, tm, level, msg)] *)
Definition formatLine (p : Z) (a : ascii) (tm : gostring) (lv : logLevel)
    (msg : gostring) : gostring :=
  fmt.itoa p ++ str ":" ++ fmt.fmtC a ++ [SP] ++ tm ++ [SP] ++
  String lv ++ [SP] ++ msg ++ [LF].

(** The value given to [dup] when [l.idups] holds. *)
Definition isDup (st : Logger) (msg : gostring) (now : time.Time) : bool :=
  gostring_eqb (last st) msg && negb (time.IsZero (lastt st)) &&
  (time.Sub now (lastt st) <? time.Millisecond).

(** [l.logf(app, level, format, noformat, args...)].  [msg] is the text
    that [fmt.Sprint(args...)] or [fmt.Sprintf(format, args...)] returns
    and [now] the value of [time.Now()].  A node passes its own tag
    [l.app] to its parent, whatever [app] it was given. *)
Fixpoint logf (l : LoggerPtr) (a : ascii) (lv : logLevel) (msg : gostring)
    (now : time.Time) (st : Logger) : Logger :=
  match l with
  | node parent lapp => logf parent lapp lv msg now st
  | root =>
      if negb (doesAccept root lv st) then st
      else
        let tm := time.Format now in
        let dup := if idups st then isDup st msg now else false in
        let st1 :=
          if idups st then
            mkLogger (wr st) (level st) (tty st) (pid st) (app st) (filter st)
                     (idups st) msg now
          else st in
        if negb dup then write st1 (formatLine (pid st1) a tm lv msg)
        else st1
  end.

(** [l.iwrite(p, app)] *)
Fixpoint iwrite (l : LoggerPtr) (p : gostring) (a : ascii) (now : time.Time)
    (st : Logger) : Logger * (Z * io.error) :=
  match l with
  | node parent _ => iwrite parent p a now st
  | root =>
      match filter st with
      | None =>
          let '(w, res) := io.Write (wr st) p in
          (mkLogger w (level st) (tty st) (pid st) (app st) (filter st)
                    (idups st) (last st) (lastt st), res)
      | Some f =>
          let '(msg, _, lv) := f (TrimSpace p) (tty st) in
          (logf root a lv msg now st, (len p, None))
      end
  end.

(** [l.Write(p)] *)
Definition Write (l : LoggerPtr) (p : gostring) (now : time.Time)
    (st : Logger) : Logger * (Z * io.error) :=
  iwrite l p (appOf l st) now st.

(** The emitting methods.  The [f] and the plain and [ln] variants differ
    only in how [msg] is made from their arguments. *)
Definition Debugf l msg now st := logf l (appOf l st) logLevelDebug msg now st.
Definition Verbosef l msg now st := logf l (appOf l st) logLevelVerbose msg now st.
Definition Noticef l msg now st := logf l (appOf l st) logLevelNotice msg now st.
Definition Warningf l msg now st := logf l (appOf l st) logLevelWarning msg now st.
Definition Printf l msg now st := logf l (appOf l st) logLevelNotice msg now st.
Definition Debug l msg now st := logf l (appOf l st) logLevelDebug msg now st.
Definition Verbose l msg now st := logf l (appOf l st) logLevelVerbose msg now st.
Definition Notice l msg now st := logf l (appOf l st) logLevelNotice msg now st.
Definition Warning l msg now st := logf l (appOf l st) logLevelWarning msg now st.
Definition Print l msg now st := logf l (appOf l st) logLevelNotice msg now st.

(** [Fatalf], [Fatal], [Fatalln]: the state after the call to [logf], and
    the status given to [os.Exit]. *)
Definition Fatalf l msg now st : Logger * Z :=
  (logf l (appOf l st) logLevelWarning msg now st, 1).

(** [s[i:]] *)
Definition sliceFrom (s : gostring) (i : Z) : gostring := skipn (Z.to_nat i) s.

(** [s[i]]; every use below is at an index smaller than the length, as
    [HashicorpRaftFilterChecked] makes explicit. *)
Definition byteAt (s : gostring) (i : nat) : ascii := nth i s NUL.

(** [for len(msg) > 0 && msg[0] == ' ' { msg = msg[1:] }] *)
Fixpoint dropLeadingSP (msg : gostring) : gostring :=
  match msg with
  | c :: msg' => if Ascii.eqb c SP then dropLeadingSP msg' else msg
  | [] => []
  end.

(** The [switch msg[1]] of the filter. *)
Definition levelOfLetter (c : ascii) : logLevel :=
  if Ascii.eqb c "W" then logLevelWarning
  else if Ascii.eqb c "E" then logLevelWarning
  else if Ascii.eqb c "D" then logLevelDebug
  else if Ascii.eqb c "V" then logLevelVerbose
  else if Ascii.eqb c "I" then logLevelNotice
  else logLevelVerbose.

(** The three replacements made when [tty] holds. *)
Definition colorRoles (msg : gostring) : gostring :=
  let msg := Replace1 msg (str "[Leader]")
               (ESC :: str "[32m[Leader]" ++ colorReset) in
  let msg := Replace1 msg (str "[Follower]")
               (ESC :: str "[33m[Follower]" ++ colorReset) in
  Replace1 msg (str "[Candidate]")
           (ESC :: str "[36m[Candidate]" ++ colorReset).

(** [HashicorpRaftFilter].  The results [app] and [level] are named and
    start at their zero values. *)
Definition HashicorpRaftFilter (line : gostring) (tty : bool)
    : gostring * ascii * logLevel :=
  let msg := line in
  let idx := IndexByte msg SP in
  let msg := if negb (idx =? -1) then sliceFrom msg (idx + 1) else msg in
  let idx := IndexByte msg "]" in
  let '(msg, lv) :=
    if negb (idx =? -1) && Ascii.eqb (byteAt msg 0) "[" then
      (dropLeadingSP (sliceFrom msg (idx + 1)), levelOfLetter (byteAt msg 1))
    else (msg, 0) in
  let msg := if tty then colorRoles msg else msg in
  (msg, NUL, lv).

(** *** The run-time checks of the filter *)

(** [s[i]] with the bounds check of Go: [None] is the panic
    "index out of range". *)
Definition index (s : gostring) (i : Z) : option ascii :=
  if (0 <=? i) && (i <? len s) then nth_error s (Z.to_nat i) else None.

(** [s[i:]] with the bounds check of Go: [None] is the panic
    "slice bounds out of range". *)
Definition sliceChecked (s : gostring) (i : Z) : option gostring :=
  if (0 <=? i) && (i <=? len s) then Some (skipn (Z.to_nat i) s) else None.

(** [HashicorpRaftFilter] once more, with every index and slice expression
    checked, in the order in which they are evaluated: [msg[idx+1:]], then
    the guard [idx != -1 && msg[0] == '['], whose right operand is
    evaluated only when the left one holds, then [msg[1]] of the [switch],
    then [msg[idx+1:]].  The loop tests [len(msg) > 0] before it reads
    [msg[0]].  [None] is a panic. *)
Definition HashicorpRaftFilterChecked (line : gostring) (tty : bool)
    : option (gostring * ascii * logLevel) :=
  let msg := line in
  let idx := IndexByte msg SP in
  match (if negb (idx =? -1) then sliceChecked msg (idx + 1) else Some msg) with
  | None => None
  | Some msg =>
      let idx := IndexByte msg "]" in
      match (if negb (idx =? -1)
             then option_map (fun c => Ascii.eqb c "[") (index msg 0)
             else Some false) with
      | None => None
      | Some true =>
          match index msg 1 with
          | None => None
          | Some letter =>
              match sliceChecked msg (idx + 1) with
              | None => None
              | Some rest =>
                  let msg := dropLeadingSP rest in
                  let msg := if tty then colorRoles msg else msg in
                  Some (msg, NUL, levelOfLetter letter)
              end
          end
      | Some false =>
          let msg := if tty then colorRoles msg else msg in
          Some (msg, NUL, 0)
      end
  end.

(** *** The two relays *)

(** What [ReadString('\n')] and [ReadBytes('\n')] return: the data read,
    and whether [err] is nil.  With a nil error the data ends in the
    delimiter. *)
Inductive readResult : Type :=
| readLine (line : gostring)
| readErr (data : gostring).

(** A goroutine running [for { body }], after a number of turns of the
    loop: still in the loop, or returned. *)
Inductive goroutine (St : Type) : Type :=
| running (s : St)
| returned (s : St).
Arguments running {St} s.
Arguments returned {St} s.

(** [fuel] turns of a loop whose [i]-th turn is [body i]; [body] answers
    [None] when the turn executes [return]. *)
Fixpoint loop {St : Type} (body : nat -> St -> option St) (fuel i : nat)
    (s : St) : goroutine St :=
  match fuel with
  | O => running s
  | S k =>
      match body i s with
      | None => returned s
      | Some s' => loop body k (S i) s'
      end
  end.

(** The [if len(parts) > 5] block of the relay of [RedisLogColorizer]. *)
Definition colorizeLine (line : gostring) : gostring :=
  let parts := Split line SP in
  if (5 <? List.length parts)%nat then
    let color := colorOf (nth 4 parts []) in
    if negb (gostring_eqb color []) then
      Join (setIndex 4 (color ++ nth 4 parts [] ++ colorReset) parts) [SP]
    else line
  else line.

(** One turn of the goroutine of [RedisLogColorizer]; the state is
    [os.Stdout]. *)
Definition colorizerTurn (r : readResult) (stdout : io.Writer) : option io.Writer :=
  match r with
  | readErr _ => None
  | readLine line => Some (fst (io.Write stdout (colorizeLine line)))
  end.

(** What [RedisLogColorizer] returns: the writer it was given, or the
    write end of a pipe on which it has started its relay. *)
Inductive colorized : Type :=
| sameWriter (w : io.Writer)
| pipeWriter.

(** [RedisLogColorizer(wr)] *)
Definition RedisLogColorizer (w : io.Writer) : colorized :=
  if negb (istty w) then sameWriter w else pipeWriter.

(** The relay started by [RedisLogColorizer], after [fuel] turns; the
    reads of its pipe return [pipe 0], [pipe 1], ... *)
Definition colorizerRelay (pipe : nat -> readResult) (fuel : nat)
    (stdout : io.Writer) : goroutine io.Writer :=
  loop (fun i => colorizerTurn (pipe i)) fuel 0%nat stdout.

(** One turn of the goroutine of [l.GoLogger()]: on an error [continue],
    otherwise [l.Printf("%s", line[:len(line)-1])]. *)
Definition goLoggerTurn (l : LoggerPtr) (r : readResult) (now : time.Time)
    (st : Logger) : option Logger :=
  match r with
  | readErr _ => Some st
  | readLine line => Some (Printf l (removelast line) now st)
  end.

(** The relay started by [l.GoLogger()], after [fuel] turns; [clock i] is
    the time at the [i]-th turn. *)
Definition goLoggerRelay (l : LoggerPtr) (pipe : nat -> readResult)
    (clock : nat -> time.Time) (fuel : nat) (st : Logger) : goroutine Logger :=
  loop (fun i => goLoggerTurn l (pipe i) (clock i)) fuel 0%nat st.

End redlog.

(** ** The variant of the package without a hierarchy *)

Module part_000.

Import strings.

Definition levelDebug : Z := 0.
Definition levelVerbose : Z := 1.
Definition levelNotice : Z := 2.
Definition levelWarning : Z := 3.
Definition levelFatal : Z := 4.

Definition levelChars : list ascii := ["."; "-"; "*"; "#"; "#"]%char.
Definition levelColors : list gostring := [str "35"; []; str "1"; str "33"; str "31"].

Definition Filter : Type := gostring -> bool -> gostring * ascii * Z.

Record Options : Type := mkOptions {
  Level : Z;
  OFilter : option Filter;
  App : ascii
}.

Definition DefaultOptions : Options := mkOptions 2 None "M"%char.

(** [wr = None] is [ioutil.Discard]. *)
Record Logger : Type := mkLogger {
  app : ascii;
  level : Z;
  pid : Z;
  filter : option Filter;
  tty : bool;
  wr : option io.Writer
}.

(** [New(wr, opts)]; a nil [wr] and a nil [opts] are [None].  The answer
    [None] is the panic ["invalid level"]. *)
Definition New (w : option io.Writer) (opts : option Options) (getpid : Z)
    : option Logger :=
  let opts := match opts with None => DefaultOptions | Some o => o end in
  if (Level opts <? levelDebug) || (levelWarning <? Level opts) then None
  else
    Some (mkLogger (App opts) (Level opts) getpid (OFilter opts)
            (match w with Some f => io.isTerminal f | None => false end) w).

(** The loop that removes the trailing bytes, on the reversed message. *)
Fixpoint stripRev (r : gostring) : gostring :=
  match r with
  | c :: r' =>
      if Ascii.eqb c TAB || Ascii.eqb c SP || Ascii.eqb c CR || Ascii.eqb c LF
      then stripRev r' else r
  | [] => []
  end.

(** The function [write]; [msg] is the text that [fmt.Sprintf] or
    [fmt.Sprint] returns.  The answer [None] is the panic of an index out
    of the range of [levelColors] or [levelChars]. *)
Definition write (l : Logger) (a : ascii) (lv : Z) (msg : gostring)
    (now : time.Time) : option Logger :=
  match wr l with
  | None => Some l
  | Some w =>
      let prefix := fmt.itoa (pid l) ++ [":"%char; a; SP] ++ time.Format now ++ [SP] in
      if lv <? 0 then None
      else
        match nth_error levelColors (Z.to_nat lv), nth_error levelChars (Z.to_nat lv) with
        | Some color, Some c =>
            let prefix :=
              if tty l && negb (gostring_eqb color []) then
                prefix ++ (ESC :: str "[" ++ color ++ str "m") ++ [c] ++ (ESC :: str "[0m")
              else prefix ++ [c] in
            let msg := rev (stripRev (rev msg)) in
            let w' := fst (io.Write w (prefix ++ [SP] ++ msg ++ [LF])) in
            Some (mkLogger (app l) (level l) (pid l) (filter l) (tty l) (Some w'))
        | _, _ => None
        end
  end.

(** [l.writef(level, format, args)] and [l.write(level, args)] *)
Definition writef (l : Logger) (lv : Z) (msg : gostring) (now : time.Time)
    : option Logger :=
  if level l <=? lv then write l (app l) lv msg now else Some l.

(** [l.Write(p)] *)
Definition Write (l : Logger) (p : gostring) (now : time.Time)
    : option (Logger * (Z * io.error)) :=
  let '(line, a, lv) :=
    match filter l with
    | Some f => f p (tty l)
    | None => (p, NUL, 0)
    end in
  if level l <=? lv then
    match write l a lv line now with
    | Some l' => Some (l', (len p, None))
    | None => None
    end
  else Some (l, (len p, None)).

End part_000.

(** * The vocabulary of the statements *)

(** The bytes that [\d] matches. *)
Definition isDigit (c : ascii) : bool :=
  (48 <=? nat_of_ascii c)%nat && (nat_of_ascii c <=? 57)%nat.

(** A byte below 0x80 that is not white space. *)
Definition asciiVisible (c : ascii) : bool :=
  (nat_of_ascii c <? 128)%nat && negb (strings.asciiSpace c).

(** The last field of [time.Format]: [15:04:05.000]. *)
Definition clockField (t : time.Time) : gostring :=
  time.appendInt (time.tHour t) 2 ++ str ":" ++
  time.appendInt (time.tMinute t) 2 ++ str ":" ++
  time.appendInt (time.tSecond t) 2 ++ str "." ++
  time.appendInt ((time.tNanosecond t / 1000000) mod 1000) 3.

(** The fifth field after [write] has coloured it. *)
Definition paint (g : gostring) : gostring :=
  if gostring_eqb (redlog.colorOf g) [] then g
  else redlog.colorOf g ++ g ++ redlog.colorReset.

(** The glyph field of the line handed to the sink: coloured on a terminal,
    unless the tag is a space, which shifts the fields that [write] sees. *)
Definition glyphField (tty : bool) (a : ascii) (lv : redlog.logLevel) : gostring :=
  if tty && negb (Ascii.eqb a SP) then paint (redlog.String lv)
  else redlog.String lv.

(** Everything of the line that comes before the message. *)
Definition header (st : redlog.Logger) (a : ascii) (now : time.Time)
    (lv : redlog.logLevel) : gostring :=
  fmt.itoa (redlog.pid st) ++ str ":" ++ fmt.fmtC a ++ [SP] ++
  time.Format now ++ [SP] ++ glyphField (redlog.tty st) a lv.

(** The message as it appears in the line: nothing when only white space
    is left of it, otherwise a space and the message without its trailing
    white space. *)
Definition messageField (msg : gostring) : gostring :=
  match strings.TrimRightSpace msg with
  | [] => []
  | b => SP :: b
  end.

(** The line that an emission with tag [a] at severity [lv] hands to the
    sink of [st]. *)
Definition emittedLine (st : redlog.Logger) (a : ascii) (now : time.Time)
    (lv : redlog.logLevel) (msg : gostring) : gostring :=
  header st a now lv ++ messageField msg ++ [LF].

(** The tag with which [logf], called on [l] with tag [a], reaches the
    root: each node on the way replaces it by its own. *)
Fixpoint rootTag (l : redlog.LoggerPtr) (a : ascii) : ascii :=
  match l with
  | redlog.root => a
  | redlog.node parent lapp => rootTag parent lapp
  end.

(** One byte of a pattern: [\d], [\w] or a literal. *)
Inductive cls : Type :=
| cDigit
| cWord
| cLit (c : ascii).

(** The bytes that [\w] matches. *)
Definition isWord (c : ascii) : bool :=
  let n := nat_of_ascii c in
  isDigit c || ((65 <=? n) && (n <=? 90))%nat || ((97 <=? n) && (n <=? 122))%nat
  || Ascii.eqb c "_".

Definition matchCls (k : cls) (c : ascii) : bool :=
  match k with
  | cDigit => isDigit c
  | cWord => isWord c
  | cLit x => Ascii.eqb x c
  end.

(** [s] matches the pattern [p] from its first to its last byte. *)
Fixpoint matchAll (p : list cls) (s : gostring) : bool :=
  match p, s with
  | [], [] => true
  | k :: p', c :: s' => matchCls k c && matchAll p' s'
  | _, _ => false
  end.

(** The pattern that matches the text [s] and nothing else. *)
Definition lits (s : String.string) : list cls := map cLit (str s).

(** [\d{2} \w{3} \d{2}:\d{2}:\d{2}\.\d{3}] *)
Definition stampPattern : list cls :=
  [cDigit; cDigit] ++ lits " " ++ [cWord; cWord; cWord] ++ lits " " ++
  [cDigit; cDigit] ++ lits ":" ++ [cDigit; cDigit] ++ lits ":" ++
  [cDigit; cDigit] ++ lits "." ++ [cDigit; cDigit; cDigit].

(** [^100:M \d{2} \w{3} \d{2}:\d{2}:\d{2}\.\d{3} \* hello world$] *)
Definition examplePattern : list cls :=
  lits "100:M " ++ stampPattern ++ lits " * hello world".

(** The line as the format [<pid>:<app> <day> <month> <HH:MM:SS.mmm>
    <glyph> <message>] reads: every field, the message [m] included,
    follows one space, and the glyph stands bare. *)
Definition shapedLine (p : Z) (a : ascii) (now : time.Time)
    (lv : redlog.logLevel) (m : gostring) : gostring :=
  fmt.itoa p ++ str ":" ++ fmt.fmtC a ++ [SP] ++ time.Format now ++ [SP] ++
  redlog.String lv ++ [SP] ++ m ++ [LF].

(** A reading of the clock used in the examples: 7 March, 09:05:03.012. *)
Definition exampleTime : time.Time :=
  time.mkTime 63845312703012345678 time.March 7 9 5 3 12345678.

(** [n] clamped into the range from Debug to Warning. *)
Definition clampLevel (n : Z) : Z :=
  Z.max redlog.logLevelDebug (Z.min redlog.logLevelWarning n).

(** [rest] is what the filter keeps of [line] after its first step: the
    text after the first space, or all of [line] when it has no space. *)
Definition afterToken (line rest : gostring) : Prop :=
  (~ In SP line /\ rest = line) \/
  (exists tok, ~ In SP tok /\ line = tok ++ SP :: rest).

(** The four bytes that the specification names. *)
Definition trailingByte (c : ascii) : bool :=
  Ascii.eqb c SP || Ascii.eqb c TAB || Ascii.eqb c CR || Ascii.eqb c LF.

(** [old] occurs in [s]: what [strings.Contains(s, old)] answers, for a
    non-empty [old]. *)
Fixpoint contains (s old : gostring) : bool :=
  match strings.stripPrefix old s with
  | Some _ => true
  | None => match s with
            | [] => false
            | _ :: s' => contains s' old
            end
  end.

(** A call of one of the methods of a logger of the hierarchy: the
    three setters, an emission (any of [Debugf] ... [Println], through
    [logf]) and [Write]. *)
Inductive call : Type :=
| callSetLevel (l : redlog.LoggerPtr) (n : Z)
| callSetIgnoreDups (l : redlog.LoggerPtr) (t : bool)
| callSetFilter (l : redlog.LoggerPtr) (f : option redlog.Filter)
| callLogf (l : redlog.LoggerPtr) (a : ascii) (lv : redlog.logLevel)
    (msg : gostring) (now : time.Time)
| callWrite (l : redlog.LoggerPtr) (p : gostring) (now : time.Time).

(** The state after a call. *)
Definition perform (c : call) (st : redlog.Logger) : redlog.Logger :=
  match c with
  | callSetLevel l n => redlog.SetLevel l n st
  | callSetIgnoreDups l t => redlog.SetIgnoreDups l t st
  | callSetFilter l f => redlog.SetFilter l f st
  | callLogf l a lv msg now => redlog.logf l a lv msg now st
  | callWrite l p now => fst (redlog.Write l p now st)
  end.

(** The state after a sequence of calls, the first one first. *)
Definition performAll (cs : list call) (st : redlog.Logger) : redlog.Logger :=
  fold_left (fun s c => perform c s) cs st.

(** The calls that only configure. *)
Definition isSetter (c : call) : bool :=
  match c with
  | callSetLevel _ _ | callSetIgnoreDups _ _ | callSetFilter _ _ => true
  | _ => false
  end.

(** What no call changes: the pid, the tag and the terminal flag of the
    root, how the sink answers, and what the sink has received so far. *)
Definition keeps (st st' : redlog.Logger) : Prop :=
  redlog.pid st' = redlog.pid st /\ redlog.app st' = redlog.app st /\
  redlog.tty st' = redlog.tty st /\
  io.answer (redlog.wr st') = io.answer (redlog.wr st) /\
  io.isTerminal (redlog.wr st') = io.isTerminal (redlog.wr st) /\
  exists more,
    io.received (redlog.wr st') = io.received (redlog.wr st) ++ more.

(** The lines that the relay of [l.GoLogger()] has had [l] write after
    [n] reads: one for each read that did not fail, none for the others. *)
Definition relayedLines (st : redlog.Logger) (tag : ascii)
    (pipe : nat -> redlog.readResult) (clock : nat -> time.Time)
    (first n : nat) : list gostring :=
  flat_map
    (fun i => match pipe i with
              | redlog.readErr _ => []
              | redlog.readLine line =>
                  [emittedLine st tag (clock i) redlog.logLevelNotice
                     (removelast line)]
              end)
    (seq first n).

(** The glyph field of [redlog.go] on a terminal, escape sequences
    written out: magenta for Debug, nothing for Verbose, bold for Notice,
    yellow for Warning. *)
Definition terminalGlyph (lv : redlog.logLevel) : gostring :=
  if lv =? redlog.logLevelDebug then ESC :: str "[35m." ++ ESC :: str "[0m"
  else if lv =? redlog.logLevelVerbose then str "-"
  else if lv =? redlog.logLevelNotice then ESC :: str "[1m*" ++ ESC :: str "[0m"
  else if lv =? redlog.logLevelWarning then ESC :: str "[33m#" ++ ESC :: str "[0m"
  else str "?".

(** The glyph field of the variant without a hierarchy, for the
    severities from Debug to Fatal: [.], [-], [*], [#], [#], on a terminal
    in magenta, as it is, bold, yellow and red. *)
Definition flatGlyph (tty : bool) (lv : Z) : gostring :=
  if lv =? part_000.levelDebug then
    if tty then ESC :: str "[35m." ++ ESC :: str "[0m" else str "."
  else if lv =? part_000.levelVerbose then str "-"
  else if lv =? part_000.levelNotice then
    if tty then ESC :: str "[1m*" ++ ESC :: str "[0m" else str "*"
  else if lv =? part_000.levelWarning then
    if tty then ESC :: str "[33m#" ++ ESC :: str "[0m" else str "#"
  else
    if tty then ESC :: str "[31m#" ++ ESC :: str "[0m" else str "#".

(** The line of the variant without a hierarchy: the tag is the byte as
    it is, and the message [m], empty or not, follows one space. *)
Definition flatLine (p : Z) (a : ascii) (now : time.Time) (glyph m : gostring)
    : gostring :=
  fmt.itoa p ++ [":"%char; a; SP] ++ time.Format now ++ [SP] ++ glyph ++
  [SP] ++ m ++ [LF].



(** * Properties *)

(** ** Go strings *)

Lemma gostring_eqb_eq a b : gostring_eqb a b = true <-> a = b.
Proof.
  unfold gostring_eqb. destruct (list_eq_dec ascii_dec a b); split; congruence.
Qed.

Lemma gostring_eqb_refl a : gostring_eqb a a = true.
Proof. now apply gostring_eqb_eq. Qed.

Lemma gostring_eqb_neq a b : a <> b -> gostring_eqb a b = false.
Proof.
  intros H. unfold gostring_eqb. destruct (list_eq_dec ascii_dec a b); congruence.
Qed.

Lemma gostring_eqb_length a b :
  List.length a <> List.length b -> gostring_eqb a b = false.
Proof. intros H. apply gostring_eqb_neq. congruence. Qed.

(** ** Digits *)

Lemma string_of_uint_digits d :
  Forall (fun c => isDigit c = true) (str (NilEmpty.string_of_uint d)).
Proof.
  induction d; simpl; constructor; auto.
Qed.

Lemma NilZero_uint_digits d :
  Forall (fun c => isDigit c = true) (str (NilZero.string_of_uint d)) /\
  str (NilZero.string_of_uint d) <> [].
Proof.
  destruct d;
    try (split; [apply (string_of_uint_digits _) | discriminate]).
  split; [ repeat constructor | discriminate ].
Qed.

Lemma digits_isDigit x : Forall (fun c => isDigit c = true) (time.digits x).
Proof. apply NilZero_uint_digits. Qed.

Lemma digits_nonempty x : time.digits x <> [].
Proof. apply NilZero_uint_digits. Qed.

Lemma isDigit_not_SP c : isDigit c = true -> c <> SP.
Proof. intros H ->. discriminate. Qed.

Lemma Forall_digit_no_SP s :
  Forall (fun c => isDigit c = true) s -> ~ In SP s.
Proof.
  intros H Hin. rewrite Forall_forall in H.
  apply (isDigit_not_SP _ (H _ Hin)). reflexivity.
Qed.

(** The first byte of [itoa] is a digit or the sign, the rest are digits. *)
Lemma itoa_shape z :
  exists c s, fmt.itoa z = c :: s /\
              (isDigit c = true \/ c = "-"%char) /\
              Forall (fun c => isDigit c = true) s.
Proof.
  unfold fmt.itoa.
  destruct (Z.to_int z) as [d|d]; simpl.
  - destruct (NilZero_uint_digits d) as [H Hne].
    destruct (str (NilZero.string_of_uint d)) as [|c s] eqn:E; [congruence|].
    inversion H; subst. exists c, s. auto.
  - exists "-"%char, (str (NilZero.string_of_uint d)).
    repeat split; auto. apply NilZero_uint_digits.
Qed.

Lemma itoa_no_SP z : ~ In SP (fmt.itoa z).
Proof.
  destruct (itoa_shape z) as (c & s & -> & Hc & Hs).
  intros [H|H].
  - destruct Hc as [Hc|Hc]; subst; discriminate.
  - exact (Forall_digit_no_SP _ Hs H).
Qed.

Lemma appendInt_no_SP x w : ~ In SP (time.appendInt x w).
Proof.
  unfold time.appendInt. rewrite !in_app_iff. intros [H|[H|H]].
  - destruct (x <? 0); simpl in H; [destruct H as [H|[]]; discriminate | exact H].
  - apply repeat_spec in H. discriminate.
  - exact (Forall_digit_no_SP _ (digits_isDigit x) H).
Qed.

Lemma monthAbbrev_no_SP m : ~ In SP (time.monthAbbrev m).
Proof.
  destruct m; simpl; intros H;
    repeat (destruct H as [H|H]; [discriminate|]); exact H.
Qed.

(** ** The layout of the timestamp *)

Lemma Format_fields t :
  time.Format t =
  time.appendInt (time.tDay t) 2 ++ SP ::
  time.monthAbbrev (time.tMonth t) ++ SP :: clockField t.
Proof.
  unfold time.Format, clockField. simpl. reflexivity.
Qed.

Lemma clockField_no_SP t : ~ In SP (clockField t).
Proof.
  unfold clockField. rewrite !in_app_iff. simpl.
  intros H.
  repeat match type of H with
         | _ \/ _ => destruct H as [H|H]
         end;
    try discriminate; try contradiction;
    try (exact (appendInt_no_SP _ _ H)).
Qed.

Lemma appendInt_length x w : (w <= List.length (time.appendInt x w))%nat.
Proof.
  unfold time.appendInt. rewrite !length_app, repeat_length. lia.
Qed.

Lemma clockField_long t : (2 <= List.length (clockField t))%nat.
Proof.
  unfold clockField. rewrite length_app.
  pose proof (appendInt_length (time.tHour t) 2). lia.
Qed.

(** ** Splitting and joining *)

Lemma genSplit_0 sep s : strings.genSplit 0 sep s = [s].
Proof. destruct s; reflexivity. Qed.

Lemma genSplit_field k sep f rest :
  ~ In sep f ->
  strings.genSplit (S k) sep (f ++ sep :: rest) = f :: strings.genSplit k sep rest.
Proof.
  induction f as [|c f IH]; intros Hf; simpl.
  - now rewrite Ascii.eqb_refl.
  - destruct (Ascii.eqb_spec c sep) as [->|Hc].
    + exfalso. apply Hf. now left.
    + rewrite IH; [reflexivity|]. intros H. apply Hf. now right.
Qed.

Lemma SplitN_six f0 f1 f2 f3 f4 rest :
  ~ In SP f0 -> ~ In SP f1 -> ~ In SP f2 -> ~ In SP f3 -> ~ In SP f4 ->
  strings.SplitN
    (f0 ++ SP :: f1 ++ SP :: f2 ++ SP :: f3 ++ SP :: f4 ++ SP :: rest) SP 6
  = [f0; f1; f2; f3; f4; rest].
Proof.
  intros H0 H1 H2 H3 H4. unfold strings.SplitN. simpl.
  change (Pos.to_nat 5) with 5%nat.
  rewrite !genSplit_field by assumption.
  now rewrite genSplit_0.
Qed.

Lemma colorize6_fields f0 f1 f2 f3 f4 rest :
  ~ In SP f0 -> ~ In SP f1 -> ~ In SP f2 -> ~ In SP f3 -> ~ In SP f4 ->
  redlog.colorize6
    (f0 ++ SP :: f1 ++ SP :: f2 ++ SP :: f3 ++ SP :: f4 ++ SP :: rest)
  = f0 ++ SP :: f1 ++ SP :: f2 ++ SP :: f3 ++ SP :: paint f4 ++ SP :: rest.
Proof.
  intros H0 H1 H2 H3 H4. unfold redlog.colorize6, paint.
  rewrite SplitN_six by assumption. simpl.
  destruct (gostring_eqb (redlog.colorOf f4) []); simpl; [reflexivity|].
  now rewrite <- !app_assoc.
Qed.

Lemma colorOf_long g : (2 <= List.length g)%nat -> redlog.colorOf g = [].
Proof.
  intros H. unfold redlog.colorOf.
  rewrite !gostring_eqb_length; simpl; try lia. reflexivity.
Qed.

Lemma fmtC_no_SP a : a <> SP -> ~ In SP (fmt.fmtC a).
Proof.
  intros Ha. unfold fmt.fmtC.
  destruct (nat_of_ascii a <? 128)%nat eqn:E.
  - simpl. intros [H|[]]. congruence.
  - apply Nat.ltb_ge in E.
    pose proof (nat_ascii_bounded a) as Hb.
    assert (Hq : (nat_of_ascii a / 64 < 4)%nat)
      by (apply Nat.Div0.div_lt_upper_bound; lia).
    pose proof (Nat.mod_upper_bound (nat_of_ascii a) 64 ltac:(lia)) as Hr.
    intros [H|[H|[]]]; apply (f_equal nat_of_ascii) in H;
      rewrite nat_ascii_embedding in H by lia;
      change (nat_of_ascii SP) with 32%nat in H; lia.
Qed.

Lemma String_no_SP lv : ~ In SP (redlog.String lv).
Proof.
  unfold redlog.String.
  repeat match goal with |- context [if ?b then _ else _] => destruct b end;
    simpl; intros [H|[]]; discriminate.
Qed.

Create HintDb nosp.
#[local] Hint Resolve itoa_no_SP appendInt_no_SP monthAbbrev_no_SP
  clockField_no_SP String_no_SP : nosp.

(** The line of [logf] once [write] has coloured it. *)
Lemma colorize6_formatLine st a now lv msg :
  redlog.colorize6
    (redlog.formatLine (redlog.pid st) a (time.Format now) lv msg)
  = fmt.itoa (redlog.pid st) ++ str ":" ++ fmt.fmtC a ++ [SP] ++
    time.Format now ++ [SP] ++ glyphField true a lv ++ [SP] ++ msg ++ [LF].
Proof.
  unfold redlog.formatLine, glyphField. rewrite Format_fields. simpl.
  destruct (Ascii.eqb_spec a SP) as [->|Ha]; simpl.
  - change (fmt.fmtC SP) with [SP].
    pose proof (colorize6_fields
                  (fmt.itoa (redlog.pid st) ++ [":"%char]) []
                  (time.appendInt (time.tDay now) 2)
                  (time.monthAbbrev (time.tMonth now))
                  (clockField now)
                  (redlog.String lv ++ SP :: msg ++ [LF])) as E.
    unfold paint in E. rewrite (colorOf_long (clockField now)) in E
      by apply clockField_long.
    simpl in E. rewrite <- ?app_assoc in E. simpl in E.
    rewrite <- ?app_assoc. simpl. rewrite <- ?app_assoc. simpl.
    apply E; auto with nosp.
    rewrite in_app_iff. intros [H|[H|[]]]; [exact (itoa_no_SP _ H)|discriminate].
  - pose proof (colorize6_fields
                  (fmt.itoa (redlog.pid st) ++ ":"%char :: fmt.fmtC a)
                  (time.appendInt (time.tDay now) 2)
                  (time.monthAbbrev (time.tMonth now))
                  (clockField now)
                  (redlog.String lv)
                  (msg ++ [LF])) as E.
    rewrite <- ?app_assoc in E. simpl in E. rewrite <- ?app_assoc in E.
    rewrite <- ?app_assoc. simpl. rewrite <- ?app_assoc. simpl.
    apply E; auto with nosp.
    rewrite in_app_iff. intros [H|[H|H]];
      [exact (itoa_no_SP _ H)|discriminate|exact (fmtC_no_SP a Ha H)].
Qed.

(** ** Trimming *)

Ltac ascii_absurd :=
  match goal with
  | H : asciiVisible _ = true |- _ => discriminate H
  end.

Lemma visible_not_space c : asciiVisible c = true -> strings.asciiSpace c = false.
Proof.
  unfold asciiVisible. intros H. apply andb_true_iff in H as [_ H].
  now apply negb_true_iff in H.
Qed.

Lemma visible_space2_l c b : asciiVisible c = true -> strings.space2 c b = false.
Proof.
  intros H. unfold strings.space2.
  destruct (Ascii.eqb_spec c "194"); [subst; ascii_absurd | reflexivity].
Qed.

Lemma visible_space3_l c b2 b3 :
  asciiVisible c = true -> strings.space3 c b2 b3 = false.
Proof.
  intros H. unfold strings.space3.
  destruct (Ascii.eqb_spec c "225"); [subst; ascii_absurd|].
  destruct (Ascii.eqb_spec c "226"); [subst; ascii_absurd|].
  destruct (Ascii.eqb_spec c "227"); [subst; ascii_absurd|].
  reflexivity.
Qed.

Lemma visible_space2_r b c : asciiVisible c = true -> strings.space2 b c = false.
Proof.
  intros H. unfold strings.space2.
  destruct (Ascii.eqb_spec c "133"); [subst; ascii_absurd|].
  destruct (Ascii.eqb_spec c "160"); [subst; ascii_absurd|].
  apply andb_false_r.
Qed.

Lemma visible_space3_r b1 b2 c :
  asciiVisible c = true -> strings.space3 b1 b2 c = false.
Proof.
  intros H. unfold strings.space3.
  assert (Hlt : (nat_of_ascii c < 128)%nat).
  { unfold asciiVisible in H. apply andb_true_iff in H as [H _].
    now apply Nat.ltb_lt in H. }
  destruct (Ascii.eqb_spec c "128"); [subst; ascii_absurd|].
  destruct (Ascii.eqb_spec c "168"); [subst; ascii_absurd|].
  destruct (Ascii.eqb_spec c "169"); [subst; ascii_absurd|].
  destruct (Ascii.eqb_spec c "175"); [subst; ascii_absurd|].
  destruct (Ascii.eqb_spec c "159"); [subst; ascii_absurd|].
  assert (E : (128 <=? nat_of_ascii c)%nat = false) by (apply Nat.leb_gt; lia).
  rewrite E. simpl. now rewrite !andb_false_r.
Qed.

Lemma TrimLeftSpace_visible c s :
  asciiVisible c = true -> strings.TrimLeftSpace (c :: s) = c :: s.
Proof.
  intros H. simpl. rewrite (visible_not_space _ H).
  destruct s as [|b2 [|b3 s]]; try reflexivity.
  - now rewrite visible_space2_l.
  - now rewrite visible_space2_l, visible_space3_l.
Qed.

Lemma dropSpaceRev_visible c r :
  asciiVisible c = true -> strings.dropSpaceRev (c :: r) = c :: r.
Proof.
  intros H. simpl. rewrite (visible_not_space _ H).
  destruct r as [|b2 [|b1 r]]; try reflexivity.
  - now rewrite visible_space2_r.
  - now rewrite visible_space2_r, visible_space3_r.
Qed.

Lemma space2_SP_l x : strings.space2 SP x = false.
Proof. reflexivity. Qed.

Lemma space3_SP_l y x : strings.space3 SP y x = false.
Proof. reflexivity. Qed.

Lemma space3_SP_m z x : strings.space3 z SP x = false.
Proof.
  unfold strings.space3. simpl. now rewrite !andb_false_r.
Qed.

(** Trailing white space in front of a separating space: either the whole
    of [r] goes, and the space with it, or what is left of [r] stays in
    front of the space. *)
Lemma dropSpaceRev_SP_tail n : forall r t,
  (List.length r <= n)%nat ->
  strings.dropSpaceRev (r ++ SP :: t) =
  match strings.dropSpaceRev r with
  | [] => strings.dropSpaceRev t
  | r' => r' ++ SP :: t
  end.
Proof.
  induction n as [|n IH]; intros r t Hn.
  - destruct r; [reflexivity | simpl in Hn; lia].
  - destruct r as [|x [|y [|z r3]]]; [reflexivity| | |]; simpl in Hn;
      cbn [app strings.dropSpaceRev];
      destruct (strings.asciiSpace x) eqn:Ex;
      try (apply (IH [] t); simpl; lia);
      try (apply (IH [y] t); simpl; lia);
      try (apply (IH (y :: z :: r3) t); simpl; lia).
    + rewrite space2_SP_l.
      destruct t as [|b1 t]; [reflexivity|]. now rewrite space3_SP_m.
    + destruct (strings.space2 y x) eqn:E2.
      * apply (IH [] t). simpl; lia.
      * now rewrite space3_SP_l.
    + destruct (strings.space2 y x) eqn:E2.
      * apply (IH (z :: r3) t). simpl; lia.
      * destruct (strings.space3 z y x) eqn:E3; [|reflexivity].
        apply (IH r3 t). lia.
Qed.

Lemma dropSpaceRev_spaces w r :
  Forall (fun c => strings.asciiSpace c = true) w ->
  strings.dropSpaceRev (w ++ r) = strings.dropSpaceRev r.
Proof.
  induction 1 as [|c w Hc _ IH]; [reflexivity|].
  simpl. now rewrite Hc.
Qed.

(** [strings.TrimSpace] on a line [H ++ " " ++ msg ++ "\n"] whose part [H]
    begins and ends with a visible byte. *)
Lemma TrimSpace_line c H g msg :
  asciiVisible c = true -> asciiVisible g = true ->
  strings.TrimSpace ((c :: H ++ [g]) ++ SP :: msg ++ [LF]) =
  (c :: H ++ [g]) ++
  match strings.TrimRightSpace msg with
  | [] => []
  | b => SP :: b
  end.
Proof.
  intros Hc Hg. unfold strings.TrimSpace.
  change ((c :: H ++ [g]) ++ SP :: msg ++ [LF])
    with (c :: ((H ++ [g]) ++ SP :: msg ++ [LF])).
  rewrite TrimLeftSpace_visible by assumption.
  unfold strings.TrimRightSpace.
  change (c :: (H ++ [g]) ++ SP :: msg ++ [LF])
    with ((c :: H ++ [g]) ++ SP :: msg ++ [LF]).
  set (P := c :: H ++ [g]).
  assert (Hrev : rev P = g :: rev (c :: H)).
  { unfold P. change (c :: H ++ [g]) with ((c :: H) ++ [g]).
    now rewrite rev_app_distr. }
  assert (E : rev (P ++ SP :: msg ++ [LF]) = LF :: (rev msg ++ SP :: rev P)).
  { rewrite rev_app_distr. simpl. rewrite rev_app_distr. simpl.
    now rewrite <- app_assoc. }
  rewrite E. cbn [strings.dropSpaceRev].
  change (strings.asciiSpace LF) with true. cbn iota.
  rewrite (dropSpaceRev_SP_tail (List.length (rev msg))) by lia.
  destruct (strings.dropSpaceRev (rev msg)) as [|x r'] eqn:Er.
  - rewrite Hrev, dropSpaceRev_visible by assumption.
    change (rev (g :: rev (c :: H))) with (rev (rev (c :: H)) ++ [g]).
    rewrite rev_involutive. simpl. now rewrite app_nil_r.
  - rewrite rev_app_distr.
    change (rev (SP :: rev P)) with (rev (rev P) ++ [SP]).
    rewrite rev_involutive, <- app_assoc. simpl.
    destruct (rev r' ++ [x]) eqn:E'; [destruct (rev r'); discriminate|].
    reflexivity.
Qed.

Lemma trailingByte_space c : trailingByte c = true -> strings.asciiSpace c = true.
Proof.
  unfold trailingByte, strings.asciiSpace.
  destruct (Ascii.eqb c SP), (Ascii.eqb c TAB), (Ascii.eqb c CR),
    (Ascii.eqb c LF), (Ascii.eqb c VT), (Ascii.eqb c FF); simpl; congruence.
Qed.

Lemma TrimRightSpace_trailing b w :
  Forall (fun c => trailingByte c = true) w ->
  strings.TrimRightSpace (b ++ w) = strings.TrimRightSpace b.
Proof.
  intros Hw. unfold strings.TrimRightSpace.
  rewrite rev_app_distr, dropSpaceRev_spaces; [reflexivity|].
  apply Forall_rev. eapply Forall_impl; [|exact Hw].
  intros c. apply trailingByte_space.
Qed.

(** What [dropSpaceRev] removes is a prefix, and what it leaves does not
    begin with an ASCII white-space byte. *)
Lemma dropSpaceRev_spec n : forall r,
  (List.length r <= n)%nat ->
  (exists d, r = d ++ strings.dropSpaceRev r) /\
  (forall c r', strings.dropSpaceRev r = c :: r' -> strings.asciiSpace c = false).
Proof.
  induction n as [|n IH]; intros r Hn.
  - destruct r; [|simpl in Hn; lia].
    split; [exists []; reflexivity | discriminate].
  - destruct r as [|x r1]; [split; [exists []; reflexivity | discriminate]|].
    simpl in Hn. cbn [strings.dropSpaceRev].
    destruct (strings.asciiSpace x) eqn:Ex.
    { destruct (IH r1 ltac:(lia)) as [[d Hd] H2].
      split; [exists (x :: d); simpl; now rewrite <- Hd | exact H2]. }
    destruct r1 as [|y r2].
    { split; [exists []; reflexivity | intros c r' [= <- _]; exact Ex]. }
    simpl in Hn.
    destruct (strings.space2 y x).
    { destruct (IH r2 ltac:(lia)) as [[d Hd] H2].
      split; [exists (x :: y :: d); simpl; now rewrite <- Hd | exact H2]. }
    destruct r2 as [|z r3].
    { split; [exists []; reflexivity | intros c r' [= <- _]; exact Ex]. }
    simpl in Hn.
    destruct (strings.space3 z y x).
    { destruct (IH r3 ltac:(lia)) as [[d Hd] H2].
      split; [exists (x :: y :: z :: d); simpl; now rewrite <- Hd | exact H2]. }
    split; [exists []; reflexivity | intros c r' [= <- _]; exact Ex].
Qed.


Lemma TrimRightSpace_last_space msg r c :
  strings.TrimRightSpace msg = r ++ [c] -> strings.asciiSpace c = false.
Proof.
  unfold strings.TrimRightSpace. intros H.
  apply (f_equal (@rev ascii)) in H.
  rewrite rev_involutive, rev_app_distr in H. simpl in H.
  exact (proj2 (dropSpaceRev_spec _ (rev msg) (le_n _)) _ _ H).
Qed.







(** ** The line that [logf] hands to the sink *)

Ltac flat := repeat progress (rewrite <- ?app_assoc; simpl).

Lemma digit_visible c : isDigit c = true -> asciiVisible c = true.
Proof.
  intros H. unfold asciiVisible, strings.asciiSpace.
  destruct (Ascii.eqb_spec c TAB); [subst; discriminate H|].
  destruct (Ascii.eqb_spec c LF); [subst; discriminate H|].
  destruct (Ascii.eqb_spec c VT); [subst; discriminate H|].
  destruct (Ascii.eqb_spec c FF); [subst; discriminate H|].
  destruct (Ascii.eqb_spec c CR); [subst; discriminate H|].
  destruct (Ascii.eqb_spec c SP); [subst; discriminate H|].
  unfold isDigit in H. apply andb_true_iff in H as [_ H2].
  apply Nat.leb_le in H2.
  assert (E : (nat_of_ascii c <? 128)%nat = true) by (apply Nat.ltb_lt; lia).
  now rewrite E.
Qed.

Lemma glyphField_last tty a lv :
  exists G g, glyphField tty a lv = G ++ [g] /\ asciiVisible g = true.
Proof.
  unfold glyphField, redlog.String.
  destruct (tty && negb (Ascii.eqb a SP));
    repeat match goal with
           | |- context [if (?x =? ?y) then _ else _] => destruct (x =? y)
           end;
    (eexists (removelast _), (last _ NUL); split;
     [ apply app_removelast_last; vm_compute; discriminate
     | vm_compute; reflexivity ]).
Qed.

Lemma header_shape st a now lv :
  exists c H g, header st a now lv = c :: H ++ [g] /\
                asciiVisible c = true /\ asciiVisible g = true.
Proof.
  unfold header.
  destruct (itoa_shape (redlog.pid st)) as (c & s & -> & Hc & _).
  destruct (glyphField_last (redlog.tty st) a lv) as (G & g & -> & Hg).
  exists c, (s ++ str ":" ++ fmt.fmtC a ++ [SP] ++ time.Format now ++ [SP] ++ G), g.
  split; [|split].
  - flat. reflexivity.
  - destruct Hc as [Hc| ->]; [now apply digit_visible | reflexivity].
  - exact Hg.
Qed.

(** [write], given the line that [logf] has formatted, makes one call of
    the sink. *)
Lemma write_formatLine st a now lv msg :
  redlog.wr (redlog.write st
    (redlog.formatLine (redlog.pid st) a (time.Format now) lv msg))
  = fst (io.Write (redlog.wr st) (emittedLine st a now lv msg)).
Proof.
  unfold redlog.write, io.WriteString. cbn [redlog.wr].
  f_equal. f_equal. unfold emittedLine, messageField.
  destruct (header_shape st a now lv) as (c & H & g & EH & Hc & Hg).
  assert (E : (if redlog.tty st
               then redlog.colorize6
                      (redlog.formatLine (redlog.pid st) a (time.Format now) lv msg)
               else redlog.formatLine (redlog.pid st) a (time.Format now) lv msg)
              = header st a now lv ++ SP :: msg ++ [LF]).
  { unfold header. destruct (redlog.tty st) eqn:Et.
    - rewrite colorize6_formatLine. flat. reflexivity.
    - unfold redlog.formatLine, glyphField. flat. reflexivity. }
  rewrite E, EH.
  rewrite (TrimSpace_line c H g msg Hc Hg).
  now rewrite <- app_assoc.
Qed.

(** The line ends in one newline: the byte before it is no white space. *)
Lemma emittedLine_end st a now lv msg :
  exists x c, emittedLine st a now lv msg = x ++ [c; LF] /\
              strings.asciiSpace c = false.
Proof.
  unfold emittedLine, messageField.
  destruct (header_shape st a now lv) as (c0 & H & g & -> & _ & Hg).
  destruct (strings.TrimRightSpace msg) as [|b body] eqn:E.
  - exists (c0 :: H), g. split; [|now apply visible_not_space].
    simpl. now rewrite <- app_assoc.
  - destruct (exists_last (l := b :: body) ltac:(discriminate)) as (r & c & Er).
    rewrite Er in *. exists ((c0 :: H ++ [g]) ++ SP :: r), c.
    split; [|exact (TrimRightSpace_last_space _ _ _ E)].
    flat. reflexivity.
Qed.

(** An emission below the threshold leaves the logger as it is. *)
Lemma logf_root_rejected st a lv msg now :
  redlog.doesAccept redlog.root lv st = false ->
  redlog.logf redlog.root a lv msg now st = st.
Proof. intros H. simpl in *. now rewrite H. Qed.

(** An accepted emission that is not dropped makes one call of the sink. *)
Lemma logf_root_written st a lv msg now :
  redlog.doesAccept redlog.root lv st = true ->
  (redlog.idups st && redlog.isDup st msg now) = false ->
  redlog.wr (redlog.logf redlog.root a lv msg now st)
  = fst (io.Write (redlog.wr st) (emittedLine st a now lv msg)).
Proof.
  intros Hacc Hdup. simpl in *. rewrite Hacc. cbn [negb].
  destruct (redlog.idups st) eqn:Ei; simpl in Hdup.
  - rewrite Hdup. cbn [negb].
    set (st1 := redlog.mkLogger _ _ _ _ _ _ _ _ _).
    change (redlog.pid st) with (redlog.pid st1).
    now rewrite (write_formatLine st1 a now lv msg).
  - cbn [negb]. apply write_formatLine.
Qed.

(** An accepted emission that is dropped leaves the sink alone. *)
Lemma logf_root_dropped st a lv msg now :
  redlog.doesAccept redlog.root lv st = true ->
  (redlog.idups st && redlog.isDup st msg now) = true ->
  redlog.wr (redlog.logf redlog.root a lv msg now st) = redlog.wr st.
Proof.
  intros Hacc Hdup. simpl in *. rewrite Hacc. cbn [negb].
  apply andb_true_iff in Hdup as [Ei Hd]. rewrite Ei, Hd. reflexivity.
Qed.

(** ** Delegation to the root *)

Lemma logf_delegates l : forall a lv msg now st,
  redlog.logf l a lv msg now st =
  redlog.logf redlog.root (rootTag l a) lv msg now st.
Proof.
  induction l as [|parent IH lapp]; intros; [reflexivity|].
  simpl. now rewrite IH.
Qed.

Lemma doesAccept_delegates l lv st :
  redlog.doesAccept l lv st = redlog.doesAccept redlog.root lv st.
Proof. induction l; auto. Qed.

Lemma SetLevel_delegates l n st :
  redlog.SetLevel l n st = redlog.SetLevel redlog.root n st.
Proof. induction l; auto. Qed.

Lemma SetIgnoreDups_delegates l t st :
  redlog.SetIgnoreDups l t st = redlog.SetIgnoreDups redlog.root t st.
Proof. induction l; auto. Qed.

Lemma SetFilter_delegates l f st :
  redlog.SetFilter l f st = redlog.SetFilter redlog.root f st.
Proof. induction l; auto. Qed.

Lemma iwrite_delegates l p a now st :
  redlog.iwrite l p a now st = redlog.iwrite redlog.root p a now st.
Proof. induction l; auto. Qed.

(** ** The shape of the timestamp *)

Lemma matchAll_app p1 s1 p2 s2 :
  matchAll p1 s1 = true -> matchAll p2 s2 = true ->
  matchAll (p1 ++ p2) (s1 ++ s2) = true.
Proof.
  revert s1. induction p1 as [|k p1 IH]; intros [|c s1] H1 H2;
    simpl in *; try discriminate; auto.
  apply andb_true_iff in H1 as [Hk H1]. rewrite Hk. simpl. auto.
Qed.

Lemma appendInt_two x :
  0 <= x < 100 -> matchAll [cDigit; cDigit] (time.appendInt x 2) = true.
Proof.
  intros Hx.
  assert (A : forallb (fun n => matchAll [cDigit; cDigit]
                                  (time.appendInt (Z.of_nat n) 2))
                      (seq 0 100) = true) by (vm_compute; reflexivity).
  rewrite forallb_forall in A.
  specialize (A (Z.to_nat x)). rewrite Z2Nat.id in A by lia.
  apply A, in_seq. lia.
Qed.

Lemma appendInt_three x :
  0 <= x < 1000 ->
  matchAll [cDigit; cDigit; cDigit] (time.appendInt x 3) = true.
Proof.
  intros Hx.
  assert (A : forallb (fun n => matchAll [cDigit; cDigit; cDigit]
                                  (time.appendInt (Z.of_nat n) 3))
                      (seq 0 1000) = true) by (vm_compute; reflexivity).
  rewrite forallb_forall in A.
  specialize (A (Z.to_nat x)). rewrite Z2Nat.id in A by lia.
  apply A, in_seq. lia.
Qed.

Lemma monthAbbrev_word m :
  matchAll [cWord; cWord; cWord] (time.monthAbbrev m) = true.
Proof. destruct m; reflexivity. Qed.

(** The timestamp of a valid Time is two digits, three letters and
    [HH:MM:SS.mmm]. *)
Lemma Format_matches t :
  time.validTime t -> matchAll stampPattern (time.Format t) = true.
Proof.
  intros (Hd & Hh & Hm & Hs & Hn).
  unfold stampPattern, time.Format.
  repeat (apply matchAll_app);
    try reflexivity;
    try (apply appendInt_two; lia);
    try apply monthAbbrev_word.
  apply appendInt_three. apply Z.mod_pos_bound. lia.
Qed.

(** ** The line of the variant without a hierarchy *)

Lemma stripRev_test c :
  (Ascii.eqb c TAB || Ascii.eqb c SP || Ascii.eqb c CR || Ascii.eqb c LF)
  = trailingByte c.
Proof.
  unfold trailingByte.
  destruct (Ascii.eqb c SP), (Ascii.eqb c TAB), (Ascii.eqb c CR),
    (Ascii.eqb c LF); reflexivity.
Qed.

(** What the loop of [write] removes is a run of spaces, tabs, carriage
    returns and newlines, and what it leaves does not end in one. *)
Lemma stripRev_spec r :
  exists d, r = d ++ part_000.stripRev r /\
            Forall (fun c => trailingByte c = true) d /\
            (forall c r', part_000.stripRev r = c :: r' -> trailingByte c = false).
Proof.
  induction r as [|c r (d & E & F & L)]; simpl.
  - exists []. repeat split; [constructor | discriminate].
  - rewrite stripRev_test. destruct (trailingByte c) eqn:Ec.
    + exists (c :: d). simpl. rewrite <- E. repeat split; auto.
    + exists []. repeat split; [constructor|].
      intros c' r' [= <- _]. exact Ec.
Qed.

Lemma part_000_levels lv :
  0 <= lv <= part_000.levelFatal ->
  exists glyph color,
    nth_error part_000.levelChars (Z.to_nat lv) = Some glyph /\
    nth_error part_000.levelColors (Z.to_nat lv) = Some color.
Proof.
  unfold part_000.levelFatal. intros H.
  assert (E : lv = 0 \/ lv = 1 \/ lv = 2 \/ lv = 3 \/ lv = 4) by lia.
  destruct E as [->|[->|[->|[->| ->]]]]; eexists; eexists; split; reflexivity.
Qed.

Lemma stripRev_trailing w r :
  Forall (fun c => trailingByte c = true) w ->
  part_000.stripRev (w ++ r) = part_000.stripRev r.
Proof.
  induction 1 as [|c w Hc _ IH]; [reflexivity|].
  simpl. unfold trailingByte in Hc.
  replace (Ascii.eqb c TAB || Ascii.eqb c SP || Ascii.eqb c CR || Ascii.eqb c LF)
    with true; [exact IH|].
  destruct (Ascii.eqb c SP), (Ascii.eqb c TAB), (Ascii.eqb c CR),
    (Ascii.eqb c LF); simpl in *; congruence.
Qed.

(** Its loop removes the spaces, tabs, carriage returns and newlines at the
    end of the message, and nothing else. *)
Lemma part_000_strip b c w :
  trailingByte c = false ->
  Forall (fun x => trailingByte x = true) w ->
  rev (part_000.stripRev (rev ((b ++ [c]) ++ w))) = b ++ [c].
Proof.
  intros Hc Hw. rewrite rev_app_distr, stripRev_trailing by now apply Forall_rev.
  rewrite rev_app_distr. simpl.
  replace (Ascii.eqb c TAB || Ascii.eqb c SP || Ascii.eqb c CR || Ascii.eqb c LF)
    with false.
  - simpl. now rewrite rev_involutive.
  - unfold trailingByte in Hc.
    destruct (Ascii.eqb c SP), (Ascii.eqb c TAB), (Ascii.eqb c CR),
      (Ascii.eqb c LF); simpl in *; congruence.
Qed.

Lemma stripRev_all w :
  Forall (fun c => trailingByte c = true) w -> part_000.stripRev w = [].
Proof.
  intros H. rewrite <- (app_nil_r w). now rewrite stripRev_trailing.
Qed.

(** The glyph field that [write] makes from its tables. *)
Lemma part_000_glyph tty lv glyph color :
  nth_error part_000.levelChars (Z.to_nat lv) = Some glyph ->
  nth_error part_000.levelColors (Z.to_nat lv) = Some color ->
  0 <= lv <= part_000.levelFatal ->
  (if tty && negb (gostring_eqb color [])
   then (ESC :: str "[" ++ color ++ str "m") ++ [glyph] ++ (ESC :: str "[0m")
   else [glyph]) = flatGlyph tty lv.
Proof.
  unfold part_000.levelFatal. intros Eg Ec H.
  assert (E : lv = 0 \/ lv = 1 \/ lv = 2 \/ lv = 3 \/ lv = 4) by lia.
  destruct E as [->|[->|[->|[->| ->]]]];
    injection Eg as <-; injection Ec as <-; destruct tty; reflexivity.
Qed.

(** The function [write] of the variant, for a severity from Debug to
    Fatal and a sink other than [ioutil.Discard]: one call of the sink,
    with the message less the spaces, tabs, carriage returns and newlines
    at its end. *)
Lemma part_000_write_emits l w a lv msg now :
  part_000.wr l = Some w ->
  0 <= lv <= part_000.levelFatal ->
  exists l' body ws,
    part_000.write l a lv msg now = Some l' /\
    msg = body ++ ws /\
    Forall (fun c => trailingByte c = true) ws /\
    (forall r c, body = r ++ [c] -> trailingByte c = false) /\
    part_000.wr l' =
    Some (fst (io.Write w
      (flatLine (part_000.pid l) a now (flatGlyph (part_000.tty l) lv) body))).
Proof.
  intros Hw Hlv.
  destruct (part_000_levels lv Hlv) as (glyph & color & Eg & Ec).
  destruct (stripRev_spec (rev msg)) as (d & E & F & L).
  unfold part_000.write. rewrite Hw, Eg, Ec.
  destruct (Z.ltb_spec lv 0); [lia|].
  eexists _, (rev (part_000.stripRev (rev msg))), (rev d).
  split; [reflexivity|]. split; [|split; [|split]].
  - rewrite <- rev_app_distr, <- E. now rewrite rev_involutive.
  - now apply Forall_rev.
  - intros r c Hb. apply (f_equal (@rev ascii)) in Hb.
    rewrite rev_involutive, rev_app_distr in Hb. simpl in Hb.
    exact (L _ _ Hb).
  - cbn [part_000.wr]. f_equal. f_equal. f_equal.
    rewrite <- (part_000_glyph (part_000.tty l) lv glyph color Eg Ec Hlv).
    unfold flatLine.
    destruct (part_000.tty l && negb (gostring_eqb color []));
      rewrite <- ?app_assoc; reflexivity.
Qed.

(** A message is cut in one way only into a part that does not end in a
    space, tab, carriage return or newline and a run of these. *)
Lemma trailing_cut_unique b1 w1 b2 w2 :
  b1 ++ w1 = b2 ++ w2 ->
  Forall (fun c => trailingByte c = true) w1 ->
  Forall (fun c => trailingByte c = true) w2 ->
  (forall r c, b1 = r ++ [c] -> trailingByte c = false) ->
  (forall r c, b2 = r ++ [c] -> trailingByte c = false) ->
  b1 = b2.
Proof.
  intros E F1 F2 L1 L2.
  assert (S : forall b w, Forall (fun c => trailingByte c = true) w ->
            (forall r c, b = r ++ [c] -> trailingByte c = false) ->
            rev (part_000.stripRev (rev (b ++ w))) = b).
  { intros b w F L. destruct b as [|x b0].
    - simpl. rewrite stripRev_all by now apply Forall_rev. reflexivity.
    - destruct (exists_last (l := x :: b0) ltac:(discriminate)) as (r & c & Er).
      rewrite Er in *.
      apply part_000_strip; [exact (L r c eq_refl) | exact F]. }
  rewrite <- (S b1 w1 F1 L1), <- (S b2 w2 F2 L2). now rewrite E.
Qed.

(** ** The emitted line (claim C1) *)

Lemma exampleTime_valid : time.validTime exampleTime.
Proof. unfold time.validTime; simpl; lia. Qed.

(** C1, as stated, fails at two inputs.  A Notice with the empty message on
    a buffer is accepted and not dropped, yet the line ends right after the
    glyph: it is [shapedLine] for no message at all.  On a terminal the
    glyph of a Notice comes wrapped in an escape sequence. *)
Lemma C1_blank_message_and_terminal_counterexample :
  let st := redlog.New io.Buffer 100 in
  let tt := redlog.New io.Terminal 100 in
  redlog.doesAccept redlog.root redlog.logLevelNotice st = true /\
  (redlog.idups st && redlog.isDup st [] exampleTime) = false /\
  io.received (redlog.wr (redlog.Notice redlog.root [] exampleTime st))
    = [str "100:M 07 Mar 09:05:03.012 *" ++ [LF]] /\
  (forall m,
     io.received (redlog.wr (redlog.Notice redlog.root [] exampleTime st))
     <> [shapedLine 100 "M" exampleTime redlog.logLevelNotice m]) /\
  io.received
    (redlog.wr (redlog.Notice redlog.root (str "hello world") exampleTime tt))
    = [str "100:M 07 Mar 09:05:03.012 " ++ ESC :: str "[1m*" ++ ESC ::
       str "[0m hello world" ++ [LF]] /\
  (forall m,
     io.received
       (redlog.wr (redlog.Notice redlog.root (str "hello world") exampleTime tt))
     <> [shapedLine 100 "M" exampleTime redlog.logLevelNotice m]).
Proof.
  repeat split; try (vm_compute; reflexivity).
  - intros m H. vm_compute in H. discriminate H.
  - intros m H. vm_compute in H. discriminate H.
Qed.

(** The glyph field on a terminal, byte for byte. *)
Lemma paint_String lv : paint (redlog.String lv) = terminalGlyph lv.
Proof.
  unfold terminalGlyph, redlog.String.
  repeat match goal with
         | |- context [if (?x =? ?y) then _ else _] => destruct (x =? y)
         end; reflexivity.
Qed.

(** C1, amended.  In [redlog.go] every emission that the threshold accepts
    and that is not dropped as a duplicate, made through any logger of the
    hierarchy, hands one line to the sink.  The line is
    [<pid>:<app> <day> <month> <HH:MM:SS.mmm> <glyph>], then, when the
    message without its trailing white space is not empty, one space and
    that message, then one newline; the day has two digits, the month three
    letters, and the glyphs are [.], [-], [*], [#].  When nothing is left
    of the message the newline follows the glyph.  On a terminal, and for
    a tag other than a space, the glyph of Debug is [ESC[35m.ESC[0m], that
    of Notice [ESC[1m*ESC[0m] and that of Warning [ESC[33m#ESC[0m]; the
    glyph of Verbose, and every glyph under the tag space, stays bare.
    In the variant without a hierarchy an emission that the threshold
    accepts, at a severity from Debug to Fatal, writes nothing when the
    sink is [ioutil.Discard] and otherwise hands one line to the sink:
    [<pid>:<app> <day> <month> <HH:MM:SS.mmm> <glyph> <message>] and one
    newline, where the space in front of the message stays even when
    nothing is left of it, the message has lost the spaces, tabs, carriage
    returns and newlines at its end, and on a terminal the glyph is
    wrapped in its colour.  In both, with pid 100, tag M and the message
    "hello world" at Notice on a sink that is no terminal the line, less
    its newline, matches
    [^100:M \d{2} \w{3} \d{2}:\d{2}:\d{2}\.\d{3} \* hello world$]. *)
Theorem logf_emits_one_line st l a lv msg now :
  time.validTime now ->
  redlog.doesAccept l lv st = true ->
  (redlog.idups st && redlog.isDup st msg now) = false ->
  let st' := redlog.logf l a lv msg now st in
  let tag := rootTag l a in
  let body := strings.TrimRightSpace msg in
  io.received (redlog.wr st') =
    io.received (redlog.wr st) ++ [emittedLine st tag now lv msg] /\
  (exists x c, emittedLine st tag now lv msg = x ++ [c; LF] /\
               strings.asciiSpace c = false) /\
  matchAll stampPattern (time.Format now) = true /\
  (redlog.String redlog.logLevelDebug = str "." /\
   redlog.String redlog.logLevelVerbose = str "-" /\
   redlog.String redlog.logLevelNotice = str "*" /\
   redlog.String redlog.logLevelWarning = str "#") /\
  (redlog.tty st = false -> body <> [] ->
   emittedLine st tag now lv msg = shapedLine (redlog.pid st) tag now lv body) /\
  (redlog.tty st = false -> body = [] ->
   emittedLine st tag now lv msg =
   fmt.itoa (redlog.pid st) ++ str ":" ++ fmt.fmtC tag ++ [SP] ++
   time.Format now ++ [SP] ++ redlog.String lv ++ [LF]) /\
  (redlog.tty st = true -> tag <> SP ->
   emittedLine st tag now lv msg =
   fmt.itoa (redlog.pid st) ++ str ":" ++ fmt.fmtC tag ++ [SP] ++
   time.Format now ++ [SP] ++ terminalGlyph lv ++
   match body with [] => [] | _ => SP :: body end ++ [LF]) /\
  (redlog.tty st = true -> tag = SP ->
   emittedLine st tag now lv msg =
   fmt.itoa (redlog.pid st) ++ str ":" ++ fmt.fmtC tag ++ [SP] ++
   time.Format now ++ [SP] ++ redlog.String lv ++
   match body with [] => [] | _ => SP :: body end ++ [LF]) /\
  (redlog.pid st = 100 -> tag = "M"%char -> lv = redlog.logLevelNotice ->
   msg = str "hello world" -> redlog.tty st = false ->
   exists line, emittedLine st tag now lv msg = line ++ [LF] /\
                matchAll examplePattern line = true) /\
  (forall (fl : part_000.Logger) (flv : Z),
     part_000.wr fl = None -> part_000.writef fl flv msg now = Some fl) /\
  (forall (fl : part_000.Logger) (sink : io.Writer) (flv : Z),
     part_000.wr fl = Some sink ->
     part_000.level fl <= flv -> 0 <= flv <= part_000.levelFatal ->
     exists fl' fbody ws,
       part_000.writef fl flv msg now = Some fl' /\
       part_000.wr fl' =
       Some (fst (io.Write sink
         (flatLine (part_000.pid fl) (part_000.app fl) now
            (flatGlyph (part_000.tty fl) flv) fbody))) /\
       msg = fbody ++ ws /\
       Forall (fun c => trailingByte c = true) ws /\
       (forall r c, fbody = r ++ [c] -> trailingByte c = false) /\
       (part_000.pid fl = 100 -> part_000.app fl = "M"%char ->
        flv = part_000.levelNotice -> msg = str "hello world" ->
        part_000.tty fl = false ->
        exists line,
          flatLine (part_000.pid fl) (part_000.app fl) now
            (flatGlyph (part_000.tty fl) flv) fbody = line ++ [LF] /\
          matchAll examplePattern line = true)).
Proof.
  intros Hnow Hacc Hdup st' tag body.
  rewrite doesAccept_delegates in Hacc.
  assert (Hstamp : matchAll stampPattern (time.Format now) = true)
    by now apply Format_matches.
  split; [|split; [apply emittedLine_end|]].
  { unfold st'. rewrite logf_delegates, logf_root_written by assumption.
    reflexivity. }
  split; [exact Hstamp|]. split; [repeat split; reflexivity|].
  split; [|split; [|split; [|split; [|split; [|split]]]]].
  - intros Ht Hb. unfold emittedLine, header, glyphField, messageField, shapedLine.
    rewrite Ht. fold body. destruct body; [congruence|]. flat. reflexivity.
  - intros Ht Hb. unfold emittedLine, header, glyphField, messageField.
    rewrite Ht. fold body. rewrite Hb. flat. reflexivity.
  - intros Ht Hs. unfold emittedLine, header, glyphField, messageField.
    rewrite Ht. fold body.
    destruct (Ascii.eqb_spec tag SP) as [E|_]; [contradiction|].
    cbn [andb negb]. rewrite paint_String.
    destruct body; flat; reflexivity.
  - intros Ht Hs. unfold emittedLine, header, glyphField, messageField.
    rewrite Ht, Hs. fold body. destruct body; flat; reflexivity.
  - intros Hp Hm Hl Hmsg Ht.
    exists (str "100:M " ++ time.Format now ++ str " * hello world").
    split.
    + unfold emittedLine, header, glyphField. rewrite Hp, Hm, Hl, Hmsg, Ht.
      flat. reflexivity.
    + unfold examplePattern.
      apply matchAll_app; [reflexivity|].
      apply matchAll_app; [exact Hstamp | reflexivity].
  - intros fl flv Hw. unfold part_000.writef, part_000.write. rewrite Hw.
    now destruct (part_000.level fl <=? flv).
  - intros fl sink flv Hw Hle Hlv.
    destruct (part_000_write_emits fl sink (part_000.app fl) flv msg now Hw Hlv)
      as (fl' & fbody & ws & E & Em & F & L & W).
    exists fl', fbody, ws.
    split; [|split; [exact W|split; [exact Em|split; [exact F|split; [exact L|]]]]].
    { unfold part_000.writef.
      destruct (Z.leb_spec (part_000.level fl) flv); [exact E | lia]. }
    intros Hp Ha Hl Hmsg Ht.
    assert (Eb : fbody = str "hello world").
    { symmetry. apply (trailing_cut_unique (str "hello world") [] fbody ws);
        [rewrite app_nil_r; congruence | constructor | exact F | | exact L].
      intros r c Hb.
      change (str "hello world") with (str "hello worl" ++ ["d"%char]) in Hb.
      apply app_inj_tail in Hb as [_ <-]. reflexivity. }
    exists (str "100:M " ++ time.Format now ++ str " * hello world").
    split.
    + rewrite Hp, Ha, Hl, Ht, Eb. unfold flatLine. flat. reflexivity.
    + unfold examplePattern.
      apply matchAll_app; [reflexivity|].
      apply matchAll_app; [exact Hstamp | reflexivity].
Qed.

Lemma logf_emits_one_line_witness :
  time.validTime exampleTime /\
  redlog.doesAccept redlog.root redlog.logLevelNotice
    (redlog.New io.Buffer 100) = true /\
  (redlog.idups (redlog.New io.Buffer 100) &&
   redlog.isDup (redlog.New io.Buffer 100) (str "hello world") exampleTime)
  = false /\
  io.received
    (redlog.wr (redlog.logf redlog.root "M" redlog.logLevelNotice
                  (str "hello world") exampleTime (redlog.New io.Buffer 100)))
  = [str "100:M 07 Mar 09:05:03.012 * hello world" ++ [LF]] /\
  io.received
    (redlog.wr (redlog.logf redlog.root "M" redlog.logLevelWarning
                  (str "hello world") exampleTime (redlog.New io.Terminal 100)))
  = [str "100:M 07 Mar 09:05:03.012 " ++ ESC :: str "[33m#" ++ ESC ::
     str "[0m hello world" ++ [LF]].
Proof.
  split; [exact exampleTime_valid|]. split; [reflexivity|].
  split; [reflexivity|]. split.
  - exact (proj1 (logf_emits_one_line (redlog.New io.Buffer 100) redlog.root
                    "M" redlog.logLevelNotice (str "hello world") exampleTime
                    exampleTime_valid eq_refl eq_refl)).
  - exact (proj1 (logf_emits_one_line (redlog.New io.Terminal 100) redlog.root
                    "M" redlog.logLevelWarning (str "hello world") exampleTime
                    exampleTime_valid eq_refl eq_refl)).
Defined.

(** ** The threshold (claim C2) *)

Lemma SetLevel_root_level n st :
  redlog.level (redlog.SetLevel redlog.root n st) = clampLevel n.
Proof.
  unfold clampLevel, redlog.logLevelDebug, redlog.logLevelWarning. simpl.
  unfold redlog.logLevelDebug, redlog.logLevelWarning.
  destruct (Z.ltb_spec n 0); [lia|]. destruct (Z.ltb_spec 3 n); lia.
Qed.

Lemma received_grows (w : io.Writer) line :
  io.received (fst (io.Write w line)) <> io.received w.
Proof.
  simpl. intros H. apply (f_equal (@List.length _)) in H.
  rewrite length_app in H. simpl in H. lia.
Qed.

(** C2, as stated, fails when duplicate suppression is on: after
    [SetLevel(1)] a Notice, whose severity is above the threshold, produces
    no output when the same message has just been emitted. *)
Lemma C2_duplicate_counterexample :
  let st := redlog.Notice redlog.root (str "a") exampleTime
              (redlog.SetIgnoreDups redlog.root true (redlog.New io.Buffer 100)) in
  let st' := redlog.SetLevel redlog.root 1 st in
  redlog.level st' = clampLevel 1 /\
  clampLevel 1 <= redlog.logLevelNotice /\
  io.received (redlog.wr st') = [str "100:M 07 Mar 09:05:03.012 * a" ++ [LF]] /\
  io.received (redlog.wr (redlog.Notice redlog.root (str "a") exampleTime st'))
  = io.received (redlog.wr st').
Proof. vm_compute. repeat split; discriminate. Qed.

(** C2, amended.  [SetLevel(n)], on the root or on any node, sets the
    threshold of the root to [n] clamped into the range from Debug to
    Warning and changes nothing else.  Afterwards an emission at severity
    [s], through any logger, is accepted exactly when [s] is at least the
    threshold; below the threshold it leaves the whole state as it was;
    accepted, it hands one line to the sink unless duplicate suppression
    drops it.  With duplicate suppression off there is output exactly when
    [s] is at least the threshold. *)
Theorem SetLevel_threshold l n st :
  let st' := redlog.SetLevel l n st in
  redlog.level st' = clampLevel n /\
  redlog.logLevelDebug <= redlog.level st' <= redlog.logLevelWarning /\
  (redlog.wr st' = redlog.wr st /\ redlog.tty st' = redlog.tty st /\
   redlog.pid st' = redlog.pid st /\ redlog.app st' = redlog.app st /\
   redlog.filter st' = redlog.filter st /\ redlog.idups st' = redlog.idups st /\
   redlog.last st' = redlog.last st /\ redlog.lastt st' = redlog.lastt st) /\
  forall l' a s msg now,
    (redlog.doesAccept l' s st' = true <-> clampLevel n <= s) /\
    (s < clampLevel n -> redlog.logf l' a s msg now st' = st') /\
    (clampLevel n <= s ->
     (redlog.idups st' && redlog.isDup st' msg now) = false ->
     io.received (redlog.wr (redlog.logf l' a s msg now st')) =
     io.received (redlog.wr st') ++ [emittedLine st' (rootTag l' a) now s msg]) /\
    (clampLevel n <= s ->
     (redlog.idups st' && redlog.isDup st' msg now) = true ->
     redlog.wr (redlog.logf l' a s msg now st') = redlog.wr st') /\
    (redlog.idups st' = false ->
     (io.received (redlog.wr (redlog.logf l' a s msg now st')) <>
      io.received (redlog.wr st') <-> clampLevel n <= s)).
Proof.
  intros st'. unfold st'. rewrite SetLevel_delegates.
  set (s1 := redlog.SetLevel redlog.root n st).
  assert (Hl : redlog.level s1 = clampLevel n) by apply SetLevel_root_level.
  split; [exact Hl|].
  split; [rewrite Hl; unfold clampLevel, redlog.logLevelDebug, redlog.logLevelWarning; lia|].
  split; [repeat split|].
  intros l' a s msg now.
  assert (Hacc : redlog.doesAccept l' s s1 = true <-> clampLevel n <= s).
  { rewrite doesAccept_delegates. cbn [redlog.doesAccept]. rewrite Hl.
    apply Z.leb_le. }
  assert (Hrej : s < clampLevel n -> redlog.logf l' a s msg now s1 = s1).
  { intros Hs. rewrite logf_delegates. apply logf_root_rejected.
    rewrite <- doesAccept_delegates with (l := l').
    destruct (redlog.doesAccept l' s s1) eqn:E; [|reflexivity].
    pose proof (proj1 Hacc eq_refl). lia. }
  assert (Hwr : clampLevel n <= s ->
                (redlog.idups s1 && redlog.isDup s1 msg now) = false ->
                redlog.wr (redlog.logf l' a s msg now s1) =
                fst (io.Write (redlog.wr s1) (emittedLine s1 (rootTag l' a) now s msg))).
  { intros Hs Hd. rewrite logf_delegates. apply logf_root_written; [|exact Hd].
    rewrite <- doesAccept_delegates with (l := l'). now apply Hacc. }
  split; [exact Hacc|]. split; [exact Hrej|].
  split; [intros Hs Hd; now rewrite Hwr|].
  split.
  - intros Hs Hd. rewrite logf_delegates. apply logf_root_dropped; [|exact Hd].
    rewrite <- doesAccept_delegates with (l := l'). now apply Hacc.
  - intros Hi. split.
    + intros Hne. destruct (Z.le_gt_cases (clampLevel n) s) as [H|H]; [exact H|].
      exfalso. apply Hne. rewrite Hrej by lia. reflexivity.
    + intros Hs. rewrite Hwr; [apply received_grows | exact Hs |].
      rewrite Hi. reflexivity.
Qed.

(** ** The tag of a node (claim C3) *)

(** C3: where the code departs from the claim.  A logger made by [Sub] on
    the root stamps its own tag, and on the [Write] path every node does,
    whatever tag the filter returns.  But [logf] on a node hands the tag of
    that node to its parent and drops the tag it was given, so a line
    emitted through a child of a child carries the tag of the parent: with
    [c := root.Sub('C')] and [g := c.Sub('G')], [g.Notice("x")] writes a
    line tagged [C]. *)
Theorem Sub_of_Sub_line_carries_parent_tag :
  (let st := redlog.New io.Buffer 100 in
   let c := redlog.Sub redlog.root "C" in
   let g := redlog.Sub c "G" in
   io.received (redlog.wr (redlog.Notice g (str "x") exampleTime st))
   = [str "100:C 07 Mar 09:05:03.012 * x" ++ [LF]]) /\
  (forall p t1 t2 a lv msg now st,
     redlog.logf (redlog.Sub (redlog.Sub p t1) t2) a lv msg now st =
     redlog.logf (redlog.Sub p t1) t1 lv msg now st) /\
  (forall t a lv msg now st,
     redlog.logf (redlog.Sub redlog.root t) a lv msg now st =
     redlog.logf redlog.root t lv msg now st) /\
  (forall l p now st f,
     redlog.filter st = Some f ->
     redlog.Write l p now st =
     (let '(msg, _, lv) := f (strings.TrimSpace p) (redlog.tty st) in
      (redlog.logf redlog.root (redlog.appOf l st) lv msg now st, (len p, None)))).
Proof.
  split; [vm_compute; reflexivity|].
  split; [reflexivity|]. split; [reflexivity|].
  intros l p now st f Hf. unfold redlog.Write.
  rewrite iwrite_delegates. cbn [redlog.iwrite]. rewrite Hf.
  destruct (f (strings.TrimSpace p) (redlog.tty st)) as [[msg t] lv].
  reflexivity.
Qed.

(** ** Duplicate suppression (claim C4) *)

Lemma isDup_spec st msg now :
  redlog.isDup st msg now = true <->
  redlog.last st = msg /\ time.IsZero (redlog.lastt st) = false /\
  time.Sub now (redlog.lastt st) < time.Millisecond.
Proof.
  unfold redlog.isDup. rewrite !andb_true_iff, gostring_eqb_eq, negb_true_iff.
  rewrite Z.ltb_lt. tauto.
Qed.

(** The elapsed time to a reading of the clock from the zero Time is never
    below the window. *)
Lemma Sub_zero_long now u :
  time.Millisecond <= time.instant now -> time.IsZero u = true ->
  time.Millisecond <= time.Sub now u.
Proof.
  unfold time.IsZero, time.Sub, time.Millisecond, time.minDuration,
    time.maxDuration.
  intros Hn Hu. apply Z.eqb_eq in Hu. rewrite Hu, Z.sub_0_r.
  destruct (Z.ltb_spec (time.instant now) (- 2 ^ 63)); [lia|].
  destruct (Z.ltb_spec (2 ^ 63 - 1) (time.instant now)); lia.
Qed.

Lemma emittedLine_same st st' a now lv msg :
  redlog.pid st' = redlog.pid st -> redlog.tty st' = redlog.tty st ->
  emittedLine st' a now lv msg = emittedLine st a now lv msg.
Proof. intros Hp Ht. unfold emittedLine, header. now rewrite Hp, Ht. Qed.

(** What an accepted emission does to the fields other than the sink. *)
Lemma logf_root_fields st a lv msg now :
  redlog.doesAccept redlog.root lv st = true ->
  let st' := redlog.logf redlog.root a lv msg now st in
  redlog.level st' = redlog.level st /\ redlog.pid st' = redlog.pid st /\
  redlog.tty st' = redlog.tty st /\ redlog.idups st' = redlog.idups st /\
  redlog.last st' = (if redlog.idups st then msg else redlog.last st) /\
  redlog.lastt st' = (if redlog.idups st then now else redlog.lastt st).
Proof.
  intros Hacc. simpl in *. rewrite Hacc. cbn [negb].
  destruct (redlog.idups st) eqn:Ei;
    [destruct (redlog.isDup st msg now)|]; simpl; rewrite ?Ei; repeat split.
Qed.

(** C4.  With duplicate suppression on and a reading [now] of the clock,
    an accepted emission leaves the sink alone exactly when its message
    equals the stored one and less than a millisecond has elapsed since the
    stored time; otherwise it hands its line to the sink.  In both cases
    the stored message and time become the current ones.  So a second
    emission of the same message is dropped when it comes less than a
    millisecond after the first, and written when a millisecond or more
    has passed: two such emissions, the first not itself a duplicate, make
    one line in the first case and two in the second. *)
Theorem dedup_window st l a lv msg now :
  redlog.idups st = true ->
  redlog.doesAccept l lv st = true ->
  time.Millisecond <= time.instant now ->
  let st' := redlog.logf l a lv msg now st in
  let tag := rootTag l a in
  let dup := redlog.last st = msg /\
             time.Sub now (redlog.lastt st) < time.Millisecond in
  (redlog.wr st' = redlog.wr st <-> dup) /\
  (~ dup -> io.received (redlog.wr st') =
            io.received (redlog.wr st) ++ [emittedLine st tag now lv msg]) /\
  redlog.last st' = msg /\ redlog.lastt st' = now /\
  forall now2,
    let st2 := redlog.logf l a lv msg now2 st' in
    (time.Sub now2 now < time.Millisecond ->
     redlog.wr st2 = redlog.wr st') /\
    (time.Millisecond <= time.Sub now2 now ->
     io.received (redlog.wr st2) =
     io.received (redlog.wr st') ++ [emittedLine st tag now2 lv msg]) /\
    (~ dup -> time.Sub now2 now < time.Millisecond ->
     io.received (redlog.wr st2) =
     io.received (redlog.wr st) ++ [emittedLine st tag now lv msg]) /\
    (~ dup -> time.Millisecond <= time.Sub now2 now ->
     io.received (redlog.wr st2) =
     io.received (redlog.wr st) ++
     [emittedLine st tag now lv msg; emittedLine st tag now2 lv msg]).
Proof.
  intros Hi Hacc Hnow st' tag dup.
  rewrite doesAccept_delegates in Hacc.
  assert (Hdup : redlog.isDup st msg now = true <-> dup).
  { rewrite isDup_spec. unfold dup. split; [tauto|].
    intros [Hl Hs]. repeat split; auto.
    destruct (time.IsZero (redlog.lastt st)) eqn:Ez; [|reflexivity].
    pose proof (Sub_zero_long now (redlog.lastt st) Hnow Ez). lia. }
  assert (Hw : ~ dup -> redlog.wr st' =
                 fst (io.Write (redlog.wr st) (emittedLine st tag now lv msg))).
  { intros Hn. unfold st'. rewrite logf_delegates.
    apply logf_root_written; [exact Hacc|]. rewrite Hi. simpl.
    destruct (redlog.isDup st msg now) eqn:E; [|reflexivity].
    exfalso. apply Hn, Hdup. reflexivity. }
  assert (Hd : dup -> redlog.wr st' = redlog.wr st).
  { intros Hy. unfold st'. rewrite logf_delegates.
    apply logf_root_dropped; [exact Hacc|]. rewrite Hi. simpl.
    now apply Hdup. }
  destruct (logf_root_fields st tag lv msg now Hacc)
    as (Fl & Fp & Ft & Fi & Fm & Fn).
  fold tag in Fl, Fp, Ft, Fi, Fm, Fn.
  assert (Est : st' = redlog.logf redlog.root tag lv msg now st)
    by (unfold st'; apply logf_delegates).
  rewrite <- Est in Fl, Fp, Ft, Fi, Fm, Fn. rewrite Hi in Fi, Fm, Fn.
  split.
  { split; [|exact Hd].
    intros E. destruct (redlog.isDup st msg now) eqn:Ed; [now apply Hdup|].
    exfalso. assert (Hn : ~ dup) by (intros Hy; apply Hdup in Hy; congruence).
    rewrite (Hw Hn) in E. apply (f_equal io.received) in E.
    exact (received_grows _ _ E). }
  split; [intros Hn; now rewrite (Hw Hn)|].
  split; [exact Fm|]. split; [exact Fn|].
  intros now2 st2.
  assert (Hacc' : redlog.doesAccept redlog.root lv st' = true).
  { simpl in *. now rewrite Fl. }
  assert (Hz : time.IsZero now = false).
  { unfold time.IsZero. apply Z.eqb_neq. unfold time.Millisecond in Hnow. lia. }
  assert (Hdup2 : redlog.isDup st' msg now2 = true <->
                  time.Sub now2 now < time.Millisecond).
  { rewrite isDup_spec, Fm, Fn. tauto. }
  assert (Hdrop2 : time.Sub now2 now < time.Millisecond ->
                   redlog.wr st2 = redlog.wr st').
  { intros Hs. unfold st2. rewrite logf_delegates.
    apply logf_root_dropped; [exact Hacc'|]. rewrite Fi. simpl.
    now apply Hdup2. }
  assert (Hwr2 : time.Millisecond <= time.Sub now2 now ->
                 redlog.wr st2 =
                 fst (io.Write (redlog.wr st') (emittedLine st tag now2 lv msg))).
  { intros Hs. unfold st2. rewrite logf_delegates.
    rewrite logf_root_written; [|exact Hacc'|].
    - fold tag. now rewrite (emittedLine_same st st').
    - rewrite Fi. simpl.
      destruct (redlog.isDup st' msg now2) eqn:E; [|reflexivity].
      pose proof (proj1 Hdup2 eq_refl). lia. }
  split; [exact Hdrop2|].
  split; [intros Hs; now rewrite (Hwr2 Hs)|].
  split.
  - intros Hn Hs. now rewrite (Hdrop2 Hs), (Hw Hn).
  - intros Hn Hs. rewrite (Hwr2 Hs). simpl. rewrite (Hw Hn). simpl.
    now rewrite <- app_assoc.
Qed.

Lemma dedup_window_witness :
  let st := redlog.SetIgnoreDups redlog.root true (redlog.New io.Buffer 100) in
  redlog.idups st = true /\
  redlog.doesAccept redlog.root redlog.logLevelNotice st = true /\
  time.Millisecond <= time.instant exampleTime /\
  io.received
    (redlog.wr
       (redlog.logf redlog.root "M" redlog.logLevelNotice (str "hello")
          exampleTime
          (redlog.logf redlog.root "M" redlog.logLevelNotice (str "hello")
             exampleTime st)))
  = [str "100:M 07 Mar 09:05:03.012 * hello" ++ [LF]].
Proof.
  assert (H : time.Millisecond <= time.instant exampleTime)
    by (vm_compute; discriminate).
  split; [reflexivity|]. split; [reflexivity|]. split; [exact H|].
  destruct (dedup_window
              (redlog.SetIgnoreDups redlog.root true (redlog.New io.Buffer 100))
              redlog.root "M" redlog.logLevelNotice (str "hello") exampleTime
              eq_refl eq_refl H) as (_ & _ & _ & _ & H2).
  destruct (H2 exampleTime) as (_ & _ & H3 & _).
  apply H3.
  - intros [E _]. discriminate E.
  - vm_compute. reflexivity.
Defined.

(** ** The byte-stream entry point (claim C5) *)

(** C5, as stated, fails once a filter is installed: the sink refuses the
    line, answering zero bytes and an error, and [Write] still reports all
    of [p] written and no error. *)
Lemma C5_filtered_write_counterexample :
  let st := redlog.SetFilter redlog.root (Some redlog.HashicorpRaftFilter)
              (redlog.New io.Closed 100) in
  let p := str "ts [W] lost" ++ [LF] in
  let res := redlog.Write redlog.root p exampleTime st in
  io.received (redlog.wr (fst res)) = [str "100:M 07 Mar 09:05:03.012 # lost" ++ [LF]] /\
  io.answer (redlog.wr st) [] (str "100:M 07 Mar 09:05:03.012 # lost" ++ [LF])
    = (0, Some (str "file already closed")) /\
  snd res = (12, None).
Proof. vm_compute. repeat split. Qed.

(** C5, amended.  With no filter installed, [Write(p)], on the root or on
    any node, makes one call of the sink with [p] as it is and returns what
    that call returns, count and error, changing nothing else.  With a
    filter installed it returns the length of [p] and no error, whatever
    the sink answers. *)
Theorem Write_result l p now st :
  (redlog.filter st = None ->
   redlog.wr (fst (redlog.Write l p now st)) = fst (io.Write (redlog.wr st) p) /\
   io.received (redlog.wr (fst (redlog.Write l p now st)))
     = io.received (redlog.wr st) ++ [p] /\
   snd (redlog.Write l p now st)
     = io.answer (redlog.wr st) (io.received (redlog.wr st)) p /\
   redlog.level (fst (redlog.Write l p now st)) = redlog.level st /\
   redlog.idups (fst (redlog.Write l p now st)) = redlog.idups st /\
   redlog.last (fst (redlog.Write l p now st)) = redlog.last st /\
   redlog.lastt (fst (redlog.Write l p now st)) = redlog.lastt st) /\
  (forall f, redlog.filter st = Some f ->
   snd (redlog.Write l p now st) = (len p, None)).
Proof.
  unfold redlog.Write. rewrite iwrite_delegates. cbn [redlog.iwrite].
  split.
  - intros Hf. rewrite Hf. simpl. repeat split.
  - intros f Hf. rewrite Hf.
    destruct (f (strings.TrimSpace p) (redlog.tty st)) as [[msg t] lv].
    reflexivity.
Qed.

(** ** The filter for hashicorp/raft (claims C6 and C7) *)

Lemma IndexByte_absent s c : ~ In c s -> strings.IndexByte s c = -1.
Proof.
  induction s as [|x s IH]; intros H; simpl; [reflexivity|].
  destruct (Ascii.eqb_spec x c) as [->|_]; [exfalso; apply H; now left|].
  rewrite IH; [reflexivity|]. intros Hin. apply H. now right.
Qed.

Lemma IndexByte_first pre c post :
  ~ In c pre -> strings.IndexByte (pre ++ c :: post) c = len pre.
Proof.
  unfold len. induction pre as [|x pre IH]; intros H; simpl app.
  - simpl. now rewrite Ascii.eqb_refl.
  - cbn [strings.IndexByte].
    destruct (Ascii.eqb_spec x c) as [->|_]; [exfalso; apply H; now left|].
    rewrite IH by (intros Hin; apply H; now right).
    destruct (Z.eqb_spec (Z.of_nat (List.length pre)) (-1)); [lia|].
    cbn [List.length]. lia.
Qed.

Lemma sliceFrom_after pre c post :
  redlog.sliceFrom (pre ++ c :: post) (len pre + 1) = post.
Proof.
  unfold redlog.sliceFrom, len.
  replace (Z.to_nat (Z.of_nat (List.length pre) + 1)) with (List.length pre + 1)%nat by lia.
  rewrite skipn_app, skipn_all2 by lia.
  replace (List.length pre + 1 - List.length pre)%nat with 1%nat by lia.
  reflexivity.
Qed.

(** Every index that the filter reads lies inside the string: the guard
    [idx != -1 && msg[0] == '['] leaves at least two bytes. *)
Lemma HashicorpRaftFilter_index_in_range msg :
  strings.IndexByte msg "]" <> -1 -> redlog.byteAt msg 0 = "["%char ->
  (2 <= List.length msg)%nat.
Proof.
  destruct msg as [|x [|y msg]]; intros H1 H2; simpl; try lia.
  - exfalso. apply H1. reflexivity.
  - exfalso. apply H1. unfold redlog.byteAt in H2. simpl in H2. subst x.
    reflexivity.
Qed.

Lemma filter_after_token line rest tty :
  afterToken line rest ->
  redlog.HashicorpRaftFilter line tty =
  (let '(m, lv) :=
     if negb (strings.IndexByte rest "]" =? -1) &&
        Ascii.eqb (redlog.byteAt rest 0) "["
     then (redlog.dropLeadingSP
             (redlog.sliceFrom rest (strings.IndexByte rest "]" + 1)),
           redlog.levelOfLetter (redlog.byteAt rest 1))
     else (rest, 0) in
   (if tty then redlog.colorRoles m else m, NUL, lv)).
Proof.
  intros [[Hn ->]|(tok & Hn & ->)]; unfold redlog.HashicorpRaftFilter.
  - rewrite (IndexByte_absent _ _ Hn). reflexivity.
  - rewrite (IndexByte_first _ _ _ Hn).
    assert (E : (len tok =? -1) = false) by (apply Z.eqb_neq; unfold len; lia).
    rewrite E. cbn [negb]. rewrite sliceFrom_after. reflexivity.
Qed.

Lemma dropLeadingSP_spec s :
  (exists k, s = repeat SP k ++ redlog.dropLeadingSP s) /\
  (forall m, redlog.dropLeadingSP s <> SP :: m).
Proof.
  induction s as [|c s [[k IH1] IH2]]; simpl.
  - split; [exists 0%nat; reflexivity | discriminate].
  - destruct (Ascii.eqb_spec c SP) as [->|Hc].
    + split; [exists (S k); simpl; now rewrite <- IH1 | exact IH2].
    + split; [exists 0%nat; reflexivity | congruence].
Qed.

(** An index that [strings.IndexByte] answers lies inside the string. *)
Lemma IndexByte_range s c :
  strings.IndexByte s c = -1 \/ 0 <= strings.IndexByte s c < len s.
Proof.
  unfold len. induction s as [|x s IH]; [now left|].
  cbn [strings.IndexByte List.length].
  destruct (Ascii.eqb x c); [right; lia|].
  destruct IH as [->|IH]; [now left|].
  destruct (Z.eqb_spec (strings.IndexByte s c) (-1)); [lia|]. right. lia.
Qed.

Lemma sliceChecked_in_range s i :
  0 <= i <= len s -> redlog.sliceChecked s i = Some (redlog.sliceFrom s i).
Proof.
  intros H. unfold redlog.sliceChecked, redlog.sliceFrom.
  destruct (Z.leb_spec 0 i); [|lia].
  destruct (Z.leb_spec i (len s)); [reflexivity | lia].
Qed.

Lemma index_in_range s i :
  (i < List.length s)%nat ->
  redlog.index s (Z.of_nat i) = Some (redlog.byteAt s i).
Proof.
  intros H. unfold redlog.index, redlog.byteAt, len.
  destruct (Z.leb_spec 0 (Z.of_nat i)); [|lia].
  destruct (Z.ltb_spec (Z.of_nat i) (Z.of_nat (List.length s))); [|lia].
  rewrite Nat2Z.id. cbn [andb]. now apply nth_error_nth'.
Qed.

(** No index and no slice of the filter is out of range: the filter
    panics on no line, and what it returns is what [HashicorpRaftFilter],
    read without the checks, returns. *)
Lemma HashicorpRaftFilter_no_panic line tty :
  redlog.HashicorpRaftFilterChecked line tty =
  Some (redlog.HashicorpRaftFilter line tty).
Proof.
  unfold redlog.HashicorpRaftFilterChecked, redlog.HashicorpRaftFilter.
  assert (E1 : (if negb (strings.IndexByte line SP =? -1)
                then redlog.sliceChecked line (strings.IndexByte line SP + 1)
                else Some line)
               = Some (if negb (strings.IndexByte line SP =? -1)
                       then redlog.sliceFrom line (strings.IndexByte line SP + 1)
                       else line)).
  { destruct (IndexByte_range line SP) as [->|H]; [reflexivity|].
    destruct (Z.eqb_spec (strings.IndexByte line SP) (-1)); [lia|].
    cbn [negb]. apply sliceChecked_in_range. lia. }
  rewrite E1.
  set (m := if negb (strings.IndexByte line SP =? -1)
            then redlog.sliceFrom line (strings.IndexByte line SP + 1)
            else line).
  destruct (IndexByte_range m "]") as [E|H].
  - rewrite E. reflexivity.
  - destruct (Z.eqb_spec (strings.IndexByte m "]") (-1)) as [|Hm]; [lia|].
    cbn [negb andb].
    assert (L0 : (0 < List.length m)%nat) by (unfold len in H; lia).
    pose proof (index_in_range m 0 L0) as I0.
    change (Z.of_nat 0) with 0 in I0. rewrite I0. cbn [option_map].
    destruct (Ascii.eqb_spec (redlog.byteAt m 0) "[") as [Hb|Hb]; [|reflexivity].
    pose proof (HashicorpRaftFilter_index_in_range m Hm Hb) as L1.
    pose proof (index_in_range m 1 ltac:(lia)) as I1.
    change (Z.of_nat 1) with 1 in I1. rewrite I1.
    rewrite sliceChecked_in_range by lia.
    reflexivity.
Qed.

(** C6, as stated, fails.  A line with no bracketed tag loses its first
    token all the same, and its severity is the zero value, Debug: for
    "hello world" the filter returns "world" at Debug, and for "hello" the
    whole text, at Debug again. *)
Lemma C6_malformed_line_counterexample :
  redlog.HashicorpRaftFilter (str "hello world") false
    = (str "world", NUL, redlog.logLevelDebug) /\
  str "world" <> str "hello world" /\
  redlog.HashicorpRaftFilter (str "hello") false
    = (str "hello", NUL, redlog.logLevelDebug) /\
  redlog.logLevelDebug <> redlog.logLevelVerbose.
Proof. repeat split; try reflexivity; discriminate. Qed.

(** C6, amended.  The filter fails on no line: none of its index and
    slice expressions is out of range, whatever the line and the terminal
    flag.  Let [rest] be the text after the first space of the line, or the
    whole line when it has no space.  When [rest] does not begin with a
    bracket, or holds no closing bracket, the message returned is [rest].
    When [rest] begins with a bracketed tag whose letter is none of D, V,
    I, W, E, the severity is Verbose and the message is the text after the
    closing bracket, less its leading spaces. *)
Theorem HashicorpRaftFilter_malformed line rest :
  afterToken line rest ->
  (hd_error rest <> Some "["%char \/ ~ In "]"%char rest ->
   fst (fst (redlog.HashicorpRaftFilter line false)) = rest) /\
  (forall pre tail,
     rest = "["%char :: pre ++ "]"%char :: tail -> ~ In "]"%char pre ->
     ~ In (hd "]"%char pre) ["D"; "V"; "I"; "W"; "E"]%char ->
     redlog.HashicorpRaftFilter line false
     = (redlog.dropLeadingSP tail, NUL, redlog.logLevelVerbose)) /\
  (forall any tty,
     redlog.HashicorpRaftFilterChecked any tty
     = Some (redlog.HashicorpRaftFilter any tty)).
Proof.
  intros Hrest. rewrite (filter_after_token line rest false Hrest).
  split; [|split; [|exact HashicorpRaftFilter_no_panic]].
  - intros [Hh|Hb].
    + destruct rest as [|x rest]; [reflexivity|].
      change (redlog.byteAt (x :: rest) 0) with x.
      destruct (Ascii.eqb_spec x "["); [subst; now elim Hh|].
      now rewrite andb_false_r.
    + now rewrite (IndexByte_absent _ _ Hb).
  - intros pre tail -> Hpre Hletter.
    change ("["%char :: pre ++ "]"%char :: tail)
      with (("["%char :: pre) ++ "]"%char :: tail).
    rewrite IndexByte_first
      by (intros [H|H]; [discriminate | contradiction]).
    assert (E : (len ("["%char :: pre) =? -1) = false)
      by (apply Z.eqb_neq; unfold len; lia).
    rewrite E, sliceFrom_after. simpl.
    assert (L : redlog.levelOfLetter
                  (redlog.byteAt ("["%char :: pre ++ "]"%char :: tail) 1)
                = redlog.logLevelVerbose).
    { replace (redlog.byteAt ("["%char :: pre ++ "]"%char :: tail) 1)
        with (hd "]"%char pre) by (destruct pre; reflexivity).
      unfold redlog.levelOfLetter. simpl in Hletter.
      destruct (Ascii.eqb_spec (hd "]"%char pre) "W"); [exfalso; intuition|].
      destruct (Ascii.eqb_spec (hd "]"%char pre) "E"); [exfalso; intuition|].
      destruct (Ascii.eqb_spec (hd "]"%char pre) "D"); [exfalso; intuition|].
      destruct (Ascii.eqb_spec (hd "]"%char pre) "V"); [exfalso; intuition|].
      destruct (Ascii.eqb_spec (hd "]"%char pre) "I"); [exfalso; intuition|].
      reflexivity. }
    simpl in L. now rewrite L.
Qed.

Lemma HashicorpRaftFilter_malformed_witness :
  afterToken (str "hello world") (str "world") /\
  ((hd_error (str "world") <> Some "["%char \/ ~ In "]"%char (str "world")) ->
   fst (fst (redlog.HashicorpRaftFilter (str "hello world") false)) = str "world").
Proof.
  assert (H : afterToken (str "hello world") (str "world")).
  { right. exists (str "hello"). split; [|reflexivity].
    simpl. intros G.
    repeat (destruct G as [G|G]; [discriminate G|]). exact G. }
  split; [exact H|].
  exact (proj1 (HashicorpRaftFilter_malformed (str "hello world") (str "world") H)).
Defined.

(** C7.  On a line made of a token without a space, a space, a bracketed
    letter among D, V, I, W, E and a remainder, the filter with the
    terminal flag off returns the remainder less its leading spaces, and
    the severity Debug, Verbose, Notice, Warning, Warning for the letters
    D, V, I, W, E. *)
Theorem HashicorpRaftFilter_wellformed tok c rest :
  ~ In SP tok ->
  In c ["D"; "V"; "I"; "W"; "E"]%char ->
  redlog.HashicorpRaftFilter
    (tok ++ SP :: "["%char :: c :: "]"%char :: rest) false
  = (redlog.dropLeadingSP rest, NUL, redlog.levelOfLetter c) /\
  (exists k, rest = repeat SP k ++ redlog.dropLeadingSP rest) /\
  (forall m, redlog.dropLeadingSP rest <> SP :: m) /\
  ((c = "D"%char /\ redlog.levelOfLetter c = redlog.logLevelDebug) \/
   (c = "V"%char /\ redlog.levelOfLetter c = redlog.logLevelVerbose) \/
   (c = "I"%char /\ redlog.levelOfLetter c = redlog.logLevelNotice) \/
   (c = "W"%char /\ redlog.levelOfLetter c = redlog.logLevelWarning) \/
   (c = "E"%char /\ redlog.levelOfLetter c = redlog.logLevelWarning)).
Proof.
  intros Htok Hc.
  assert (Hne : c <> "]"%char).
  { simpl in Hc. intros ->.
    repeat (destruct Hc as [Hc|Hc]; [discriminate Hc|]). exact Hc. }
  split; [|split; [apply dropLeadingSP_spec|split; [apply dropLeadingSP_spec|]]].
  - rewrite (filter_after_token _ ("["%char :: c :: "]"%char :: rest) false)
      by (right; exists tok; auto).
    change ("["%char :: c :: "]"%char :: rest)
      with (["["%char; c] ++ "]"%char :: rest).
    rewrite IndexByte_first
      by (simpl; intros [H|[H|[]]]; [discriminate | congruence]).
    change (len ["["%char; c]) with 2. simpl. reflexivity.
  - simpl in Hc.
    destruct Hc as [<-|[<-|[<-|[<-|[<-|[]]]]]]; simpl; intuition.
Qed.

Lemma HashicorpRaftFilter_wellformed_witness :
  ~ In SP (str "2024-01-01T00:00:00") /\
  In "W"%char ["D"; "V"; "I"; "W"; "E"]%char /\
  redlog.HashicorpRaftFilter
    (str "2024-01-01T00:00:00 [W] leader lost contact") false
  = (str "leader lost contact", NUL, redlog.logLevelWarning).
Proof.
  assert (H1 : ~ In SP (str "2024-01-01T00:00:00")).
  { simpl. intros G.
    repeat (destruct G as [G|G]; [discriminate G|]). exact G. }
  assert (H2 : In "W"%char ["D"; "V"; "I"; "W"; "E"]%char)
    by (simpl; auto).
  split; [exact H1|]. split; [exact H2|].
  exact (proj1 (HashicorpRaftFilter_wellformed (str "2024-01-01T00:00:00")
                  "W" (str " leader lost contact") H1 H2)).
Defined.

(** ** The two relays (claim C8) *)

(** On a sink that is no terminal [RedisLogColorizer] returns the sink. *)
Lemma RedisLogColorizer_pass_through w :
  io.isTerminal w = false -> redlog.RedisLogColorizer w = redlog.sameWriter w.
Proof. intros H. unfold redlog.RedisLogColorizer, redlog.istty. now rewrite H. Qed.

Section Loop.

Variable St : Type.
Variable body : nat -> St -> option St.

(** A turn that executes [return] ends the goroutine. *)
Lemma loop_return fuel i s :
  body i s = None -> redlog.loop body (S fuel) i s = redlog.returned s.
Proof. intros H. simpl. now rewrite H. Qed.

(** A turn that does not goes on to the next one. *)
Lemma loop_next fuel i s s' :
  body i s = Some s' ->
  redlog.loop body (S fuel) i s = redlog.loop body fuel (S i) s'.
Proof. intros H. simpl. now rewrite H. Qed.

(** A loop none of whose turns returns or changes the state is still
    running, in that state, after any number of turns. *)
Lemma loop_spins s :
  (forall i, body i s = Some s) ->
  forall fuel i, redlog.loop body fuel i s = redlog.running s.
Proof.
  intros H. induction fuel as [|fuel IH]; intros i; [reflexivity|].
  rewrite (loop_next _ _ _ _ (H i)). apply IH.
Qed.

End Loop.

(** C8: where the code departs from the claim.  The relay of
    [RedisLogColorizer] returns at the first read that fails.  The relay of
    [GoLogger] does not: a failed read takes it to the next turn with its
    state unchanged, so on a pipe whose every read fails it is still in its
    loop after any number of turns. *)
Theorem GoLogger_relay_spins_on_read_error :
  (forall pipe i stdout d fuel,
     pipe i = redlog.readErr d ->
     redlog.loop (fun j => redlog.colorizerTurn (pipe j)) (S fuel) i stdout
     = redlog.returned stdout) /\
  (forall l pipe clock i st d fuel,
     pipe i = redlog.readErr d ->
     redlog.loop (fun j => redlog.goLoggerTurn l (pipe j) (clock j)) (S fuel) i st
     = redlog.loop (fun j => redlog.goLoggerTurn l (pipe j) (clock j)) fuel (S i) st) /\
  (forall l clock st fuel,
     redlog.goLoggerRelay l (fun _ => redlog.readErr []) clock fuel st
     = redlog.running st).
Proof.
  split; [|split].
  - intros pipe i stdout d fuel H. apply loop_return. now rewrite H.
  - intros l pipe clock i st d fuel H. apply loop_next. now rewrite H.
  - intros l clock st fuel. unfold redlog.goLoggerRelay.
    apply loop_spins. reflexivity.
Qed.

(** ** Trailing white space (claims C9 and C10) *)



(** C10.  With duplicate suppression on, take two accepted emissions, one
    after the other, whose messages [b ++ w1] and [b ++ w2] differ only in
    their trailing white space.  The second is compared with the first as
    the caller gave it, so it is not dropped, however short the time
    between them; and the two lines are the same byte for byte whenever the
    two timestamps read the same. *)
Theorem trailing_space_defeats_dedup st l a lv b w1 w2 now1 now2 :
  redlog.idups st = true ->
  redlog.doesAccept l lv st = true ->
  Forall (fun c => trailingByte c = true) w1 ->
  Forall (fun c => trailingByte c = true) w2 ->
  w1 <> w2 ->
  let st1 := redlog.logf l a lv (b ++ w1) now1 st in
  let st2 := redlog.logf l a lv (b ++ w2) now2 st1 in
  let tag := rootTag l a in
  redlog.last st1 = b ++ w1 /\
  redlog.isDup st1 (b ++ w2) now2 = false /\
  io.received (redlog.wr st2) =
    io.received (redlog.wr st1) ++ [emittedLine st tag now2 lv b] /\
  (redlog.isDup st (b ++ w1) now1 = false ->
   io.received (redlog.wr st1) =
     io.received (redlog.wr st) ++ [emittedLine st tag now1 lv b]) /\
  (time.Format now1 = time.Format now2 ->
   emittedLine st tag now1 lv b = emittedLine st tag now2 lv b).
Proof.
  intros Hi Hacc Hw1 Hw2 Hne st1 st2 tag.
  rewrite doesAccept_delegates in Hacc.
  assert (Hline : forall w t, Forall (fun c => trailingByte c = true) w ->
            emittedLine st tag t lv (b ++ w) = emittedLine st tag t lv b).
  { intros w t Hw. unfold emittedLine, messageField.
    now rewrite TrimRightSpace_trailing. }
  destruct (logf_root_fields st tag lv (b ++ w1) now1 Hacc)
    as (Fl & Fp & Ft & Fi & Fm & Fn).
  assert (Est : st1 = redlog.logf redlog.root tag lv (b ++ w1) now1 st)
    by (unfold st1; apply logf_delegates).
  rewrite <- Est in Fl, Fp, Ft, Fi, Fm, Fn. rewrite Hi in Fi, Fm, Fn.
  assert (Hd : redlog.isDup st1 (b ++ w2) now2 = false).
  { unfold redlog.isDup. rewrite Fm.
    rewrite gostring_eqb_neq; [reflexivity|].
    intros E. apply app_inv_head in E. contradiction. }
  split; [exact Fm|]. split; [exact Hd|]. split; [|split].
  - unfold st2. rewrite logf_delegates. fold tag.
    rewrite logf_root_written.
    + rewrite (emittedLine_same st st1) by assumption.
      now rewrite Hline.
    + simpl in *. now rewrite Fl.
    + now rewrite Hd, andb_false_r.
  - intros Hd1. rewrite Est, logf_root_written.
    + now rewrite Hline.
    + exact Hacc.
    + now rewrite Hd1, andb_false_r.
  - intros E. unfold emittedLine, header. now rewrite E.
Qed.

Lemma trailing_space_defeats_dedup_witness :
  let st := redlog.SetIgnoreDups redlog.root true (redlog.New io.Buffer 100) in
  redlog.idups st = true /\
  redlog.doesAccept redlog.root redlog.logLevelNotice st = true /\
  Forall (fun c => trailingByte c = true) [] /\
  Forall (fun c => trailingByte c = true) [SP] /\
  ([] : gostring) <> [SP] /\
  io.received
    (redlog.wr
       (redlog.logf redlog.root "M" redlog.logLevelNotice (str "a" ++ [SP])
          exampleTime
          (redlog.logf redlog.root "M" redlog.logLevelNotice (str "a" ++ [])
             exampleTime st)))
  = [str "100:M 07 Mar 09:05:03.012 * a" ++ [LF];
     str "100:M 07 Mar 09:05:03.012 * a" ++ [LF]].
Proof.
  assert (H0 : Forall (fun c => trailingByte c = true) []) by constructor.
  assert (H1 : Forall (fun c => trailingByte c = true) [SP])
    by (repeat constructor).
  assert (H2 : ([] : gostring) <> [SP]) by discriminate.
  split; [reflexivity|]. split; [reflexivity|].
  split; [exact H0|]. split; [exact H1|]. split; [exact H2|].
  exact (proj1 (proj2 (proj2
    (trailing_space_defeats_dedup
       (redlog.SetIgnoreDups redlog.root true (redlog.New io.Buffer 100))
       redlog.root "M" redlog.logLevelNotice (str "a") [] [SP]
       exampleTime exampleTime eq_refl eq_refl H0 H1 H2)))).
Defined.

(** ** The variant without a hierarchy *)

(** Its [New] refuses a level outside the range from Debug to Warning. *)
Lemma part_000_New_invalid_level w o getpid :
  part_000.Level o < part_000.levelDebug \/
  part_000.levelWarning < part_000.Level o ->
  part_000.New w (Some o) getpid = None.
Proof.
  intros H. unfold part_000.New.
  destruct (Z.ltb_spec (part_000.Level o) part_000.levelDebug);
    [reflexivity|].
  destruct (Z.ltb_spec part_000.levelWarning (part_000.Level o));
    [reflexivity | lia].
Qed.

(** Its [Write] reports all of [p] written and no error, filter or not. *)
Lemma part_000_Write_result l p now r :
  part_000.Write l p now = Some r -> snd r = (len p, None).
Proof.
  unfold part_000.Write.
  destruct (match part_000.filter l with
            | Some f => f p (part_000.tty l)
            | None => (p, NUL, 0)
            end) as [[line a] lv].
  destruct (part_000.level l <=? lv).
  - destruct (part_000.write l a lv line now); [|discriminate].
    now intros [= <-].
  - now intros [= <-].
Qed.

(** Its line on a sink that is no terminal: the separator stays in front
    of a message of which nothing is left. *)
Lemma part_000_write_line l w a glyph lv msg now :
  part_000.wr l = Some w -> part_000.tty l = false ->
  0 <= lv -> nth_error part_000.levelChars (Z.to_nat lv) = Some glyph ->
  exists l',
    part_000.write l a lv msg now = Some l' /\
    part_000.wr l' =
    Some (fst (io.Write w
      (fmt.itoa (part_000.pid l) ++ [":"%char; a; SP] ++ time.Format now ++
       [SP] ++ [glyph] ++ [SP] ++ rev (part_000.stripRev (rev msg)) ++ [LF]))).
Proof.
  intros Hw Ht Hlv Hg. unfold part_000.write. rewrite Hw, Ht, Hg.
  destruct (Z.ltb_spec lv 0); [lia|].
  destruct (nth_error part_000.levelColors (Z.to_nat lv)) as [color|] eqn:Ec.
  - eexists. split; [reflexivity|]. cbn [part_000.wr andb].
    rewrite <- !app_assoc. reflexivity.
  - exfalso. apply nth_error_None in Ec.
    assert (Hlt : (Z.to_nat lv < List.length part_000.levelChars)%nat)
      by (apply nth_error_Some; congruence).
    simpl in *. lia.
Qed.

(** * Further properties of the code *)

(** ** The filter for hashicorp/raft *)

Lemma sliceFrom_suffix s i : exists pre, s = pre ++ redlog.sliceFrom s i.
Proof.
  exists (firstn (Z.to_nat i) s). unfold redlog.sliceFrom.
  now rewrite firstn_skipn.
Qed.

Lemma dropLeadingSP_suffix s : exists pre, s = pre ++ redlog.dropLeadingSP s.
Proof.
  destruct (proj1 (dropLeadingSP_spec s)) as [k Hk]. now exists (repeat SP k).
Qed.

Lemma levelOfLetter_range c :
  redlog.logLevelDebug <= redlog.levelOfLetter c <= redlog.logLevelWarning.
Proof.
  unfold redlog.levelOfLetter, redlog.logLevelDebug, redlog.logLevelWarning,
    redlog.logLevelVerbose, redlog.logLevelNotice.
  repeat match goal with
         | |- context [if ?b then _ else _] => destruct b
         end; lia.
Qed.

(** X1.  Whatever the line, the filter answers the zero tag and a severity
    from Debug to Warning; with the terminal flag off its message is a
    suffix of the line, so the filter only ever removes text from the
    front. *)
Theorem HashicorpRaftFilter_suffix_and_range line tty :
  snd (fst (redlog.HashicorpRaftFilter line tty)) = NUL /\
  redlog.logLevelDebug <= snd (redlog.HashicorpRaftFilter line tty)
    <= redlog.logLevelWarning /\
  snd (redlog.HashicorpRaftFilter line tty)
    = snd (redlog.HashicorpRaftFilter line (negb tty)) /\
  (tty = false ->
   exists pre, line = pre ++ fst (fst (redlog.HashicorpRaftFilter line tty))).
Proof.
  unfold redlog.HashicorpRaftFilter.
  set (m1 := if negb (strings.IndexByte line SP =? -1)
             then redlog.sliceFrom line (strings.IndexByte line SP + 1)
             else line).
  assert (H1 : exists pre, line = pre ++ m1).
  { unfold m1. destruct (negb (strings.IndexByte line SP =? -1));
      [apply sliceFrom_suffix | now exists []]. }
  destruct (negb (strings.IndexByte m1 "]" =? -1) &&
            Ascii.eqb (redlog.byteAt m1 0) "[") eqn:E.
  - cbn [fst snd]. split; [reflexivity|].
    split; [apply levelOfLetter_range|]. split; [reflexivity|].
    intros ->. destruct H1 as [pre1 H1].
    destruct (sliceFrom_suffix m1 (strings.IndexByte m1 "]" + 1)) as [pre2 H2].
    destruct (dropLeadingSP_suffix
                (redlog.sliceFrom m1 (strings.IndexByte m1 "]" + 1)))
      as [pre3 H3].
    exists (pre1 ++ pre2 ++ pre3).
    rewrite <- !app_assoc, <- H3, <- H2. exact H1.
  - cbn [fst snd]. split; [reflexivity|].
    split; [unfold redlog.logLevelDebug, redlog.logLevelWarning; lia|].
    split; [reflexivity|].
    intros ->. exact H1.
Qed.

Lemma stripPrefix_app p s : strings.stripPrefix p (p ++ s) = Some s.
Proof.
  induction p as [|c p IH]; simpl; [reflexivity|].
  now rewrite Ascii.eqb_refl.
Qed.

Lemma stripPrefix_head c p x s :
  x <> c -> strings.stripPrefix (c :: p) (x :: s) = None.
Proof.
  intros H. simpl. destruct (Ascii.eqb_spec c x); [congruence | reflexivity].
Qed.

(** A replacement leaves alone a prefix that lacks the first byte of the
    text it looks for. *)
Lemma Replace1_skip c old new x y :
  ~ In c x ->
  strings.Replace1 (x ++ y) (c :: old) new =
  x ++ strings.Replace1 y (c :: old) new.
Proof.
  induction x as [|b x IH]; intros H; [reflexivity|].
  cbn [app strings.Replace1].
  rewrite stripPrefix_head by (intros ->; apply H; now left).
  rewrite IH by (intros Hin; apply H; now right). reflexivity.
Qed.

Lemma Replace1_here old new s :
  strings.Replace1 (old ++ s) old new = new ++ s.
Proof.
  destruct old as [|c old]; [destruct s; reflexivity|].
  change (strings.Replace1 ((c :: old) ++ s) (c :: old) new)
    with (match strings.stripPrefix (c :: old) ((c :: old) ++ s) with
          | Some rest => new ++ rest
          | None => c :: strings.Replace1 (old ++ s) (c :: old) new
          end).
  now rewrite stripPrefix_app.
Qed.

(** A replacement changes nothing when the text it looks for is absent. *)
Lemma Replace1_absent s old new :
  contains s old = false -> strings.Replace1 s old new = s.
Proof.
  induction s as [|b s IH]; intros H.
  - simpl in *. destruct (strings.stripPrefix old []); [discriminate|reflexivity].
  - cbn [contains] in H. cbn [strings.Replace1].
    destruct (strings.stripPrefix old (b :: s)); [discriminate|].
    now rewrite IH.
Qed.

Lemma Replace1_no_first_byte c old new m :
  ~ In c m -> strings.Replace1 m (c :: old) new = m.
Proof.
  intros H. rewrite <- (app_nil_r m) at 1.
  rewrite Replace1_skip by exact H. simpl. apply app_nil_r.
Qed.

Lemma colorRoles_no_bracket m : ~ In "["%char m -> redlog.colorRoles m = m.
Proof.
  intros H. unfold redlog.colorRoles.
  change (str "[Leader]") with ("["%char :: str "Leader]").
  change (str "[Follower]") with ("["%char :: str "Follower]").
  change (str "[Candidate]") with ("["%char :: str "Candidate]").
  rewrite (Replace1_no_first_byte _ _ _ m H).
  rewrite (Replace1_no_first_byte _ _ _ m H).
  exact (Replace1_no_first_byte _ _ _ m H).
Qed.

(** X2.  With the terminal flag on, the first [Leader] of the message is
    wrapped in green and nothing else changes: a second [Leader] further on
    stays as it is.  Here the message has no bracket before its first
    [Leader] and no [Follower] or [Candidate] after it; a message without
    any bracket is returned as with the flag off. *)
Theorem HashicorpRaftFilter_colours_first_Leader line pre post a lv :
  redlog.HashicorpRaftFilter line false = (pre ++ str "[Leader]" ++ post, a, lv) ->
  ~ In "["%char pre ->
  contains post (str "[Follower]") = false ->
  contains post (str "[Candidate]") = false ->
  redlog.HashicorpRaftFilter line true
  = (pre ++ (ESC :: str "[32m[Leader]" ++ redlog.colorReset) ++ post, a, lv) /\
  (forall line' m a' lv',
     redlog.HashicorpRaftFilter line' false = (m, a', lv') ->
     ~ In "["%char m ->
     redlog.HashicorpRaftFilter line' true = (m, a', lv')).
Proof.
  intros Hf Hpre HF HC.
  assert (Hgen : forall l m a0 lv0,
             redlog.HashicorpRaftFilter l false = (m, a0, lv0) ->
             redlog.HashicorpRaftFilter l true = (redlog.colorRoles m, a0, lv0)).
  { intros l m a0 lv0. unfold redlog.HashicorpRaftFilter.
    destruct (negb _ && _); intros [= <- <- <-]; reflexivity. }
  split.
  - rewrite (Hgen _ _ _ _ Hf). f_equal. f_equal.
    set (G := ESC :: str "[32m[Leader]" ++ redlog.colorReset).
    assert (E1 : strings.Replace1 (pre ++ str "[Leader]" ++ post)
                   (str "[Leader]") G = pre ++ G ++ post).
    { change (str "[Leader]") with ("["%char :: str "Leader]").
      rewrite Replace1_skip by exact Hpre. now rewrite Replace1_here. }
    assert (EF : strings.Replace1 (pre ++ G ++ post) (str "[Follower]")
                   (ESC :: str "[33m[Follower]" ++ redlog.colorReset)
                 = pre ++ G ++ post).
    { change (str "[Follower]") with ("["%char :: str "Follower]").
      rewrite Replace1_skip by exact Hpre. f_equal.
      unfold G, redlog.colorReset. simpl.
      change ("["%char :: str "Follower]") with (str "[Follower]") in *.
      repeat f_equal. apply Replace1_absent. exact HF. }
    assert (EC : strings.Replace1 (pre ++ G ++ post) (str "[Candidate]")
                   (ESC :: str "[36m[Candidate]" ++ redlog.colorReset)
                 = pre ++ G ++ post).
    { change (str "[Candidate]") with ("["%char :: str "Candidate]").
      rewrite Replace1_skip by exact Hpre. f_equal.
      unfold G, redlog.colorReset. simpl.
      change ("["%char :: str "Candidate]") with (str "[Candidate]") in *.
      repeat f_equal. apply Replace1_absent. exact HC. }
    unfold redlog.colorRoles. fold G. rewrite E1, EF, EC. reflexivity.
  - intros line' m a' lv' Hf' Hm.
    rewrite (Hgen _ _ _ _ Hf'). now rewrite colorRoles_no_bracket.
Qed.

Lemma HashicorpRaftFilter_colours_first_Leader_witness :
  redlog.HashicorpRaftFilter (str "ts [I] a [Leader] b [Leader]") false
    = (str "a " ++ str "[Leader]" ++ str " b [Leader]", NUL,
       redlog.logLevelNotice) /\
  ~ In "["%char (str "a ") /\
  contains (str " b [Leader]") (str "[Follower]") = false /\
  contains (str " b [Leader]") (str "[Candidate]") = false /\
  redlog.HashicorpRaftFilter (str "ts [I] a [Leader] b [Leader]") true
  = (str "a " ++ (ESC :: str "[32m[Leader]" ++ redlog.colorReset) ++
     str " b [Leader]", NUL, redlog.logLevelNotice).
Proof.
  assert (H : ~ In "["%char (str "a ")).
  { simpl. intros [G|[G|[]]]; discriminate G. }
  split; [reflexivity|]. split; [exact H|].
  split; [reflexivity|]. split; [reflexivity|].
  exact (proj1 (HashicorpRaftFilter_colours_first_Leader
                  (str "ts [I] a [Leader] b [Leader]") (str "a ")
                  (str " b [Leader]") NUL redlog.logLevelNotice
                  eq_refl H eq_refl eq_refl)).
Defined.

(** ** Sequences of calls *)

Lemma keeps_refl st : keeps st st.
Proof. repeat split. exists []. now rewrite app_nil_r. Qed.

Ltac keeps_same := repeat split; exists []; simpl; now rewrite app_nil_r.

Lemma keeps_trans a b c : keeps a b -> keeps b c -> keeps a c.
Proof.
  intros (P1 & A1 & T1 & N1 & I1 & m1 & R1) (P2 & A2 & T2 & N2 & I2 & m2 & R2).
  repeat split; try congruence.
  exists (m1 ++ m2). now rewrite R2, R1, app_assoc.
Qed.

Lemma write_keeps st line :
  keeps st (redlog.write st line) /\
  redlog.level (redlog.write st line) = redlog.level st.
Proof.
  split; [|reflexivity]. repeat split. simpl. eexists. reflexivity.
Qed.

Lemma logf_keeps l a lv msg now st :
  keeps st (redlog.logf l a lv msg now st) /\
  redlog.level (redlog.logf l a lv msg now st) = redlog.level st.
Proof.
  rewrite logf_delegates. cbn [redlog.logf].
  destruct (negb (redlog.doesAccept redlog.root lv st));
    [split; [apply keeps_refl | reflexivity]|].
  destruct (redlog.idups st); [destruct (redlog.isDup st msg now)|];
    cbn [negb]; (split; [|reflexivity]); repeat split; simpl;
    solve [eexists; reflexivity | exists []; now rewrite app_nil_r].
Qed.

Lemma Write_keeps l p now st :
  keeps st (fst (redlog.Write l p now st)) /\
  redlog.level (fst (redlog.Write l p now st)) = redlog.level st.
Proof.
  unfold redlog.Write. rewrite iwrite_delegates. cbn [redlog.iwrite].
  destruct (redlog.filter st) as [f|].
  - destruct (f (strings.TrimSpace p) (redlog.tty st)) as [[msg t] lv].
    cbn [fst]. apply logf_keeps.
  - simpl. split; [|reflexivity]. repeat split. eexists. reflexivity.
Qed.

Lemma perform_keeps c st :
  redlog.logLevelDebug <= redlog.level st <= redlog.logLevelWarning ->
  keeps st (perform c st) /\
  redlog.logLevelDebug <= redlog.level (perform c st) <= redlog.logLevelWarning.
Proof.
  intros Hl. destruct c as [l n|l t|l f|l a lv msg now|l p now]; cbn [perform].
  - rewrite SetLevel_delegates. split; [keeps_same|].
    rewrite SetLevel_root_level.
    unfold clampLevel, redlog.logLevelDebug, redlog.logLevelWarning. lia.
  - rewrite SetIgnoreDups_delegates. split; [keeps_same | exact Hl].
  - rewrite SetFilter_delegates. split; [keeps_same | exact Hl].
  - destruct (logf_keeps l a lv msg now st) as [K E]. now rewrite E.
  - destruct (Write_keeps l p now st) as [K E]. now rewrite E.
Qed.

Lemma performAll_keeps cs : forall st,
  redlog.logLevelDebug <= redlog.level st <= redlog.logLevelWarning ->
  keeps st (performAll cs st) /\
  redlog.logLevelDebug <= redlog.level (performAll cs st)
    <= redlog.logLevelWarning.
Proof.
  induction cs as [|c cs IH]; intros st Hl; [split; [apply keeps_refl|exact Hl]|].
  destruct (perform_keeps c st Hl) as [K1 L1].
  destruct (IH (perform c st) L1) as [K2 L2].
  split; [exact (keeps_trans _ _ _ K1 K2) | exact L2].
Qed.

(** The setters touch neither the sink nor the stored message and time. *)
Lemma setters_keep_dedup_state cs : forall st,
  forallb isSetter cs = true ->
  redlog.wr (performAll cs st) = redlog.wr st /\
  redlog.last (performAll cs st) = redlog.last st /\
  redlog.lastt (performAll cs st) = redlog.lastt st.
Proof.
  induction cs as [|c cs IH]; intros st H; [repeat split|].
  simpl in H. apply andb_true_iff in H as [Hc H].
  destruct (IH (perform c st) H) as (W & L & T).
  change (performAll (c :: cs) st) with (performAll cs (perform c st)).
  rewrite W, L, T.
  destruct c as [l n|l t|l f|? ? ? ? ?|? ? ?]; try discriminate Hc;
    cbn [perform].
  - rewrite SetLevel_delegates. repeat split.
  - rewrite SetIgnoreDups_delegates. repeat split.
  - rewrite SetFilter_delegates. repeat split.
Qed.

Lemma New_level_range w getpid :
  redlog.logLevelDebug <= redlog.level (redlog.New w getpid)
    <= redlog.logLevelWarning.
Proof. simpl. unfold redlog.logLevelDebug, redlog.logLevelWarning,
         redlog.logLevelNotice. lia. Qed.

(** X3.  Whatever calls are made on the loggers of a hierarchy, in
    whatever order, the threshold stays between Debug and Warning, the pid,
    the tag of the root and the terminal flag stay as [New] set them, the
    sink keeps the same behaviour, and what the sink had received stays in
    place: calls only append to it. *)
Theorem calls_keep_the_root cs w getpid :
  let st := performAll cs (redlog.New w getpid) in
  redlog.logLevelDebug <= redlog.level st <= redlog.logLevelWarning /\
  redlog.pid st = getpid /\ redlog.app st = "M"%char /\
  redlog.tty st = io.isTerminal w /\
  io.answer (redlog.wr st) = io.answer w /\
  io.isTerminal (redlog.wr st) = io.isTerminal w /\
  exists more, io.received (redlog.wr st) = io.received w ++ more.
Proof.
  intros st.
  destruct (performAll_keeps cs (redlog.New w getpid) (New_level_range w getpid))
    as [(P & A & T & N & I & R) L].
  fold st in P, A, T, N, I, R, L. repeat split; try assumption; apply L.
Qed.

(** ** More on duplicate suppression *)

(** X4.  The first emission after [New] is never taken for a duplicate:
    whatever setters have been called, duplicate suppression included, an
    accepted emission hands its line to the sink, even when its message is
    the empty text that [last] starts with. *)
Theorem first_emission_is_written cs w getpid l a lv msg now :
  forallb isSetter cs = true ->
  let st := performAll cs (redlog.New w getpid) in
  redlog.doesAccept l lv st = true ->
  io.received (redlog.wr (redlog.logf l a lv msg now st)) =
  io.received w ++ [emittedLine st (rootTag l a) now lv msg].
Proof.
  intros Hcs st Hacc. rewrite doesAccept_delegates in Hacc.
  destruct (setters_keep_dedup_state cs (redlog.New w getpid) Hcs)
    as (W & L & T).
  fold st in W, L, T.
  rewrite logf_delegates, logf_root_written.
  - simpl. now rewrite W.
  - exact Hacc.
  - unfold redlog.isDup. rewrite T. simpl.
    now rewrite andb_false_r, andb_false_r.
Qed.

Lemma first_emission_is_written_witness :
  forallb isSetter [callSetIgnoreDups redlog.root true;
                    callSetLevel (redlog.Sub redlog.root "A") 0] = true /\
  redlog.doesAccept redlog.root redlog.logLevelDebug
    (performAll [callSetIgnoreDups redlog.root true;
                 callSetLevel (redlog.Sub redlog.root "A") 0]
       (redlog.New io.Buffer 100)) = true /\
  io.received
    (redlog.wr
       (redlog.logf redlog.root "M" redlog.logLevelDebug [] exampleTime
          (performAll [callSetIgnoreDups redlog.root true;
                       callSetLevel (redlog.Sub redlog.root "A") 0]
             (redlog.New io.Buffer 100))))
  = [str "100:M 07 Mar 09:05:03.012 ." ++ [LF]].
Proof.
  split; [reflexivity|]. split; [reflexivity|].
  exact (first_emission_is_written
           [callSetIgnoreDups redlog.root true;
            callSetLevel (redlog.Sub redlog.root "A") 0]
           io.Buffer 100 redlog.root "M" redlog.logLevelDebug [] exampleTime
           eq_refl eq_refl).
Defined.

(** X5.  Duplicate suppression looks at the message only.  With it on, an
    emission that repeats the message of the emission before it, less than
    a millisecond later, is dropped even when it comes through another
    logger of the hierarchy, with another tag or at another severity. *)
Theorem dedup_ignores_tag_and_severity st l1 a1 lv1 l2 a2 lv2 msg now1 now2 :
  redlog.idups st = true ->
  redlog.doesAccept l1 lv1 st = true ->
  redlog.doesAccept l2 lv2 st = true ->
  time.IsZero now1 = false ->
  time.Sub now2 now1 < time.Millisecond ->
  let st1 := redlog.logf l1 a1 lv1 msg now1 st in
  redlog.wr (redlog.logf l2 a2 lv2 msg now2 st1) = redlog.wr st1.
Proof.
  intros Hi H1 H2 Hz Hs st1.
  rewrite doesAccept_delegates in H1, H2.
  destruct (logf_root_fields st (rootTag l1 a1) lv1 msg now1 H1)
    as (Fl & _ & _ & Fi & Fm & Fn).
  assert (E : st1 = redlog.logf redlog.root (rootTag l1 a1) lv1 msg now1 st)
    by apply logf_delegates.
  rewrite <- E in Fl, Fi, Fm, Fn. rewrite Hi in Fi, Fm, Fn.
  rewrite logf_delegates. apply logf_root_dropped.
  - simpl in *. now rewrite Fl.
  - rewrite Fi. simpl. apply isDup_spec. rewrite Fm, Fn. auto.
Qed.

Lemma dedup_ignores_tag_and_severity_witness :
  let st := redlog.SetIgnoreDups redlog.root true (redlog.New io.Buffer 100) in
  redlog.idups st = true /\
  redlog.doesAccept (redlog.Sub redlog.root "A") redlog.logLevelNotice st = true /\
  redlog.doesAccept (redlog.Sub redlog.root "B") redlog.logLevelWarning st = true /\
  time.IsZero exampleTime = false /\
  time.Sub exampleTime exampleTime < time.Millisecond /\
  io.received
    (redlog.wr
       (redlog.logf (redlog.Sub redlog.root "B") "B" redlog.logLevelWarning
          (str "up") exampleTime
          (redlog.logf (redlog.Sub redlog.root "A") "A" redlog.logLevelNotice
             (str "up") exampleTime st)))
  = [str "100:A 07 Mar 09:05:03.012 * up" ++ [LF]].
Proof.
  assert (H : time.Sub exampleTime exampleTime < time.Millisecond)
    by (vm_compute; reflexivity).
  split; [reflexivity|]. split; [reflexivity|]. split; [reflexivity|].
  split; [reflexivity|]. split; [exact H|].
  exact (f_equal io.received
           (dedup_ignores_tag_and_severity
              (redlog.SetIgnoreDups redlog.root true (redlog.New io.Buffer 100))
              (redlog.Sub redlog.root "A") "A" redlog.logLevelNotice
              (redlog.Sub redlog.root "B") "B" redlog.logLevelWarning
              (str "up") exampleTime exampleTime
              eq_refl eq_refl eq_refl eq_refl H)).
Defined.

(** X6.  Only the message of the emission just before counts.  With
    duplicate suppression on, of three accepted emissions with the messages
    [m1], [m2], [m1], where [m2] differs from [m1], the second and the
    third are written however close in time the three are. *)
Theorem alternating_messages_are_written st l a lv m1 m2 now1 now2 now3 :
  redlog.idups st = true ->
  redlog.doesAccept l lv st = true ->
  m1 <> m2 ->
  let st1 := redlog.logf l a lv m1 now1 st in
  let st2 := redlog.logf l a lv m2 now2 st1 in
  let st3 := redlog.logf l a lv m1 now3 st2 in
  io.received (redlog.wr st3) =
  io.received (redlog.wr st1) ++
  [emittedLine st (rootTag l a) now2 lv m2;
   emittedLine st (rootTag l a) now3 lv m1].
Proof.
  intros Hi Hacc Hne st1 st2 st3.
  rewrite doesAccept_delegates in Hacc.
  set (tag := rootTag l a).
  assert (Step : forall s m m' t,
            redlog.idups s = true ->
            redlog.doesAccept redlog.root lv s = true ->
            redlog.last s = m' -> m' <> m ->
            redlog.wr (redlog.logf l a lv m t s)
            = fst (io.Write (redlog.wr s) (emittedLine s tag t lv m))).
  { intros s m m' t Hsi Hsa Hl Hd. rewrite logf_delegates.
    apply logf_root_written; [exact Hsa|].
    unfold redlog.isDup. rewrite Hl, (gostring_eqb_neq _ _ Hd).
    now rewrite andb_false_r. }
  assert (Next : forall s m t,
            redlog.idups s = true ->
            redlog.doesAccept redlog.root lv s = true ->
            redlog.idups (redlog.logf l a lv m t s) = true /\
            redlog.doesAccept redlog.root lv (redlog.logf l a lv m t s) = true /\
            redlog.last (redlog.logf l a lv m t s) = m /\
            redlog.pid (redlog.logf l a lv m t s) = redlog.pid s /\
            redlog.tty (redlog.logf l a lv m t s) = redlog.tty s).
  { intros s m t Hsi Hsa. rewrite logf_delegates.
    destruct (logf_root_fields s (rootTag l a) lv m t Hsa)
      as (Fl & Fp & Ft & Fi & Fm & _).
    rewrite Hsi in Fi, Fm. simpl in *. rewrite Fl. auto. }
  destruct (Next st m1 now1 Hi Hacc) as (I1 & A1 & L1 & P1 & T1).
  fold st1 in I1, A1, L1, P1, T1.
  destruct (Next st1 m2 now2 I1 A1) as (I2 & A2 & L2 & P2 & T2).
  fold st2 in I2, A2, L2, P2, T2.
  unfold st3. rewrite (Step st2 m1 m2 now3 I2 A2 L2 (fun E => Hne (eq_sym E))).
  simpl. unfold st2 at 1. rewrite (Step st1 m2 m1 now2 I1 A1 L1 Hne).
  simpl. rewrite <- app_assoc. simpl.
  rewrite (emittedLine_same st st1) by assumption.
  rewrite (emittedLine_same st st2) by congruence.
  reflexivity.
Qed.

Lemma alternating_messages_are_written_witness :
  let st := redlog.SetIgnoreDups redlog.root true (redlog.New io.Buffer 100) in
  redlog.idups st = true /\
  redlog.doesAccept redlog.root redlog.logLevelNotice st = true /\
  str "a" <> str "b" /\
  io.received
    (redlog.wr
       (redlog.logf redlog.root "M" redlog.logLevelNotice (str "a") exampleTime
          (redlog.logf redlog.root "M" redlog.logLevelNotice (str "b") exampleTime
             (redlog.logf redlog.root "M" redlog.logLevelNotice (str "a")
                exampleTime st))))
  = [str "100:M 07 Mar 09:05:03.012 * a" ++ [LF];
     str "100:M 07 Mar 09:05:03.012 * b" ++ [LF];
     str "100:M 07 Mar 09:05:03.012 * a" ++ [LF]].
Proof.
  assert (H : str "a" <> str "b") by discriminate.
  split; [reflexivity|]. split; [reflexivity|]. split; [exact H|].
  exact (alternating_messages_are_written
           (redlog.SetIgnoreDups redlog.root true (redlog.New io.Buffer 100))
           redlog.root "M" redlog.logLevelNotice (str "a") (str "b")
           exampleTime exampleTime exampleTime eq_refl eq_refl H).
Defined.

(** ** Severities out of the range *)

(** X7.  A severity above Warning, which only a filter can produce, passes
    every threshold that the setters can install; its line carries the
    glyph [?], never coloured.  A severity below Debug passes none, and the
    emission leaves the state as it was. *)
Theorem severities_out_of_range cs w getpid l a lv msg now :
  let st := performAll cs (redlog.New w getpid) in
  (redlog.logLevelWarning < lv ->
   redlog.doesAccept l lv st = true /\
   redlog.String lv = str "?" /\
   ((redlog.idups st && redlog.isDup st msg now) = false ->
    io.received (redlog.wr (redlog.logf l a lv msg now st)) =
    io.received (redlog.wr st) ++
    [fmt.itoa getpid ++ str ":" ++ fmt.fmtC (rootTag l a) ++ [SP] ++
     time.Format now ++ [SP] ++ str "?" ++ messageField msg ++ [LF]])) /\
  (lv < redlog.logLevelDebug -> redlog.logf l a lv msg now st = st).
Proof.
  intros st.
  destruct (performAll_keeps cs (redlog.New w getpid) (New_level_range w getpid))
    as [(P & _) L].
  fold st in P, L. simpl in P.
  unfold redlog.logLevelDebug, redlog.logLevelWarning in *.
  split.
  - intros Hlv.
    assert (Hacc : redlog.doesAccept redlog.root lv st = true)
      by (simpl; apply Z.leb_le; lia).
    assert (Hs : redlog.String lv = str "?").
    { unfold redlog.String, redlog.logLevelDebug, redlog.logLevelVerbose,
        redlog.logLevelNotice, redlog.logLevelWarning.
      destruct (Z.eqb_spec lv 0); [lia|]. destruct (Z.eqb_spec lv 1); [lia|].
      destruct (Z.eqb_spec lv 2); [lia|]. destruct (Z.eqb_spec lv 3); [lia|].
      reflexivity. }
    split; [now rewrite doesAccept_delegates|]. split; [exact Hs|].
    intros Hd. rewrite logf_delegates, logf_root_written by assumption.
    simpl. unfold emittedLine, header, glyphField. rewrite Hs, P.
    destruct (redlog.tty st && negb (Ascii.eqb (rootTag l a) SP));
      flat; reflexivity.
  - intros Hlv. rewrite logf_delegates. apply logf_root_rejected.
    simpl. apply Z.leb_gt. lia.
Qed.

(** ** [Write] through the filter for hashicorp/raft *)

Lemma HashicorpRaftFilter_tagged tok c rest tty :
  ~ In SP tok -> c <> "]"%char ->
  redlog.HashicorpRaftFilter
    (tok ++ SP :: "["%char :: c :: "]"%char :: rest) tty
  = (if tty then redlog.colorRoles (redlog.dropLeadingSP rest)
     else redlog.dropLeadingSP rest,
     NUL, redlog.levelOfLetter c).
Proof.
  intros Htok Hne.
  rewrite (filter_after_token _ ("["%char :: c :: "]"%char :: rest) tty)
    by (right; exists tok; auto).
  change ("["%char :: c :: "]"%char :: rest)
    with (["["%char; c] ++ "]"%char :: rest).
  rewrite IndexByte_first
    by (simpl; intros [H|[H|[]]]; [discriminate | congruence]).
  change (len ["["%char; c]) with 2. simpl. reflexivity.
Qed.

(** X8.  With [HashicorpRaftFilter] installed, [Write], on any logger of
    the hierarchy, of bytes that once trimmed read
    [<token> [<letter>]<remainder>] is an emission, under the tag of that
    logger and at the severity of the letter, of the remainder less its
    leading spaces (with its role markers coloured on a terminal).  So it
    writes one line when that severity reaches the threshold and the
    message is no duplicate, changes nothing when the severity is below
    the threshold, and in every case reports all of the bytes written. *)
Theorem Write_through_HashicorpRaftFilter st l p tok c rest now :
  redlog.filter st = Some redlog.HashicorpRaftFilter ->
  strings.TrimSpace p = tok ++ SP :: "["%char :: c :: "]"%char :: rest ->
  ~ In SP tok ->
  In c ["D"; "V"; "I"; "W"; "E"]%char ->
  let lv := redlog.levelOfLetter c in
  let msg := if redlog.tty st
             then redlog.colorRoles (redlog.dropLeadingSP rest)
             else redlog.dropLeadingSP rest in
  redlog.Write l p now st =
    (redlog.logf redlog.root (redlog.appOf l st) lv msg now st, (len p, None)) /\
  (redlog.level st <= lv ->
   (redlog.idups st && redlog.isDup st msg now) = false ->
   io.received (redlog.wr (fst (redlog.Write l p now st))) =
   io.received (redlog.wr st) ++ [emittedLine st (redlog.appOf l st) now lv msg]) /\
  (lv < redlog.level st -> fst (redlog.Write l p now st) = st).
Proof.
  intros Hf Hp Htok Hc lv msg.
  assert (Hne : c <> "]"%char).
  { simpl in Hc. intros ->.
    repeat (destruct Hc as [Hc|Hc]; [discriminate Hc|]). exact Hc. }
  assert (E : redlog.Write l p now st =
              (redlog.logf redlog.root (redlog.appOf l st) lv msg now st,
               (len p, None))).
  { unfold redlog.Write. rewrite iwrite_delegates. cbn [redlog.iwrite].
    rewrite Hf, Hp, (HashicorpRaftFilter_tagged tok c rest _ Htok Hne).
    reflexivity. }
  split; [exact E|]. rewrite E. cbn [fst]. split.
  - intros Hl Hd. rewrite logf_root_written; [reflexivity| |exact Hd].
    simpl. now apply Z.leb_le.
  - intros Hl. apply logf_root_rejected. simpl. apply Z.leb_gt. lia.
Qed.

Lemma Write_through_HashicorpRaftFilter_witness :
  let st := redlog.SetFilter redlog.root (Some redlog.HashicorpRaftFilter)
              (redlog.New io.Buffer 100) in
  let p := str "  2024-01-01T00:00:00 [W] leader lost contact" ++ [CR; LF] in
  redlog.filter st = Some redlog.HashicorpRaftFilter /\
  strings.TrimSpace p
    = str "2024-01-01T00:00:00" ++ SP :: "["%char :: "W"%char :: "]"%char ::
      str " leader lost contact" /\
  ~ In SP (str "2024-01-01T00:00:00") /\
  In "W"%char ["D"; "V"; "I"; "W"; "E"]%char /\
  redlog.level st <= redlog.levelOfLetter "W" /\
  (redlog.idups st && redlog.isDup st (str "leader lost contact") exampleTime)
    = false /\
  io.received
    (redlog.wr (fst (redlog.Write (redlog.Sub redlog.root "R") p exampleTime st)))
  = [str "100:R 07 Mar 09:05:03.012 # leader lost contact" ++ [LF]].
Proof.
  assert (H1 : ~ In SP (str "2024-01-01T00:00:00")).
  { simpl. intros G.
    repeat (destruct G as [G|G]; [discriminate G|]). exact G. }
  assert (H2 : In "W"%char ["D"; "V"; "I"; "W"; "E"]%char) by (simpl; auto).
  assert (H3 : redlog.level
                 (redlog.SetFilter redlog.root (Some redlog.HashicorpRaftFilter)
                    (redlog.New io.Buffer 100)) <= redlog.levelOfLetter "W")
    by (vm_compute; discriminate).
  split; [reflexivity|]. split; [reflexivity|]. split; [exact H1|].
  split; [exact H2|]. split; [exact H3|]. split; [reflexivity|].
  exact (proj1 (proj2
    (Write_through_HashicorpRaftFilter
       (redlog.SetFilter redlog.root (Some redlog.HashicorpRaftFilter)
          (redlog.New io.Buffer 100))
       (redlog.Sub redlog.root "R")
       (str "  2024-01-01T00:00:00 [W] leader lost contact" ++ [CR; LF])
       (str "2024-01-01T00:00:00") "W" (str " leader lost contact")
       exampleTime eq_refl eq_refl H1 H2)) H3 eq_refl).
Defined.

(** ** The relay of [RedisLogColorizer] *)

Lemma genSplit_nonempty n sep s : strings.genSplit n sep s <> [].
Proof.
  destruct s as [|c s]; [discriminate|]. simpl.
  destruct n; [discriminate|].
  destruct (Ascii.eqb c sep); [discriminate|].
  destruct (strings.genSplit (S n) sep s); discriminate.
Qed.

Lemma Join_cons p q ps sep :
  strings.Join (p :: q :: ps) sep = p ++ sep ++ strings.Join (q :: ps) sep.
Proof. reflexivity. Qed.

(** Joining what was split gives the text back. *)
Lemma Join_genSplit sep s : forall n,
  strings.Join (strings.genSplit n sep s) [sep] = s.
Proof.
  induction s as [|c s IH]; intros n; [reflexivity|].
  cbn [strings.genSplit]. destruct n as [|k]; [reflexivity|].
  destruct (Ascii.eqb_spec c sep) as [->|Hc].
  - specialize (IH k).
    destruct (strings.genSplit k sep s) as [|q ps] eqn:E;
      [now apply genSplit_nonempty in E|].
    rewrite Join_cons, IH. reflexivity.
  - specialize (IH (S k)).
    destruct (strings.genSplit (S k) sep s) as [|q ps] eqn:E;
      [now apply genSplit_nonempty in E|].
    destruct ps as [|r ps]; [simpl in *; now rewrite IH|].
    rewrite Join_cons. rewrite Join_cons in IH. rewrite <- IH. reflexivity.
Qed.

Lemma genSplit_no_sep n sep s :
  ~ In sep s -> strings.genSplit n sep s = [s].
Proof.
  revert n. induction s as [|c s IH]; intros n H; [reflexivity|].
  cbn [strings.genSplit]. destruct n as [|k]; [reflexivity|].
  destruct (Ascii.eqb_spec c sep) as [->|_]; [exfalso; apply H; now left|].
  rewrite IH by (intros Hin; apply H; now right). reflexivity.
Qed.

(** On a line with six fields or more the relay colours the fifth, as
    [write] does on a terminal. *)
Lemma colorizeLine_fields f0 f1 f2 f3 f4 rest :
  ~ In SP f0 -> ~ In SP f1 -> ~ In SP f2 -> ~ In SP f3 -> ~ In SP f4 ->
  redlog.colorizeLine
    (f0 ++ SP :: f1 ++ SP :: f2 ++ SP :: f3 ++ SP :: f4 ++ SP :: rest)
  = f0 ++ SP :: f1 ++ SP :: f2 ++ SP :: f3 ++ SP :: paint f4 ++ SP :: rest.
Proof.
  intros H0 H1 H2 H3 H4.
  set (line := f0 ++ SP :: f1 ++ SP :: f2 ++ SP :: f3 ++ SP :: f4 ++ SP :: rest).
  assert (Hlen : (5 <= List.length line)%nat).
  { unfold line. repeat (rewrite length_app; cbn [List.length]). lia. }
  unfold redlog.colorizeLine, strings.Split, strings.SplitN. simpl.
  destruct (List.length line) as [|[|[|[|[|k]]]]] eqn:E; try lia.
  unfold line. rewrite !genSplit_field by assumption.
  pose proof (Join_genSplit SP rest k) as HJ.
  destruct (strings.genSplit k SP rest) as [|q ps] eqn:Eg;
    [now apply genSplit_nonempty in Eg|].
  cbn [List.length Nat.ltb Nat.leb nth redlog.setIndex].
  unfold paint.
  destruct (gostring_eqb (redlog.colorOf f4) []); cbn [negb]; [reflexivity|].
  rewrite !Join_cons, HJ. flat. reflexivity.
Qed.

(** On a line with five fields the relay changes nothing. *)
Lemma colorizeLine_five f0 f1 f2 f3 f4 :
  ~ In SP f0 -> ~ In SP f1 -> ~ In SP f2 -> ~ In SP f3 -> ~ In SP f4 ->
  redlog.colorizeLine (f0 ++ SP :: f1 ++ SP :: f2 ++ SP :: f3 ++ SP :: f4)
  = f0 ++ SP :: f1 ++ SP :: f2 ++ SP :: f3 ++ SP :: f4.
Proof.
  intros H0 H1 H2 H3 H4.
  set (line := f0 ++ SP :: f1 ++ SP :: f2 ++ SP :: f3 ++ SP :: f4).
  assert (Hlen : (4 <= List.length line)%nat).
  { unfold line. repeat (rewrite length_app; cbn [List.length]). lia. }
  unfold redlog.colorizeLine, strings.Split, strings.SplitN. simpl.
  destruct (List.length line) as [|[|[|[|k]]]] eqn:E; try lia.
  unfold line. rewrite !genSplit_field by assumption.
  rewrite genSplit_no_sep by assumption. reflexivity.
Qed.

Lemma LF_suffix_no_SP g : ~ In SP g -> ~ In SP (g ++ [LF]).
Proof.
  intros H Hin. apply in_app_or in Hin as [Hin|[Hin|[]]];
    [exact (H Hin) | discriminate Hin].
Qed.

(** X9.  The relay of [RedisLogColorizer] does to a line written by a
    logger on a plain sink what [write] does on a terminal: when the
    message is not blank, the coloured line is byte for byte the line that
    a logger with the same pid writes to a terminal.  A line whose message
    is blank has too few fields for the relay, which leaves it as it is. *)
Theorem colorizer_agrees_with_terminal_logger st st' a now lv msg :
  redlog.tty st = false -> redlog.tty st' = true ->
  redlog.pid st' = redlog.pid st ->
  (strings.TrimRightSpace msg <> [] ->
   redlog.colorizeLine (emittedLine st a now lv msg)
   = emittedLine st' a now lv msg) /\
  (strings.TrimRightSpace msg = [] ->
   redlog.colorizeLine (emittedLine st a now lv msg)
   = emittedLine st a now lv msg).
Proof.
  intros Ht Ht' Hp.
  unfold emittedLine, header, glyphField, messageField.
  rewrite Ht, Ht', Hp, Format_fields. cbn [andb].
  set (P := fmt.itoa (redlog.pid st)).
  assert (HP : ~ In SP (P ++ [":"%char])).
  { unfold P. rewrite in_app_iff. intros [H|[H|[]]];
      [exact (itoa_no_SP _ H) | discriminate]. }
  split; intros Hb.
  - destruct (strings.TrimRightSpace msg) as [|b body]; [congruence|].
    destruct (Ascii.eqb_spec a SP) as [->|Ha]; cbn [negb].
    + change (fmt.fmtC SP) with [SP].
      pose proof (colorizeLine_fields (P ++ [":"%char]) []
                    (time.appendInt (time.tDay now) 2)
                    (time.monthAbbrev (time.tMonth now)) (clockField now)
                    (redlog.String lv ++ SP :: b :: body ++ [LF])
                    HP (fun x => x)
                    (appendInt_no_SP _ _) (monthAbbrev_no_SP _)
                    (clockField_no_SP _)) as E.
      unfold paint in E.
      rewrite (colorOf_long (clockField now)) in E by apply clockField_long.
      simpl in E. flat. rewrite <- ?app_assoc in E. simpl in E. exact E.
    + assert (H0 : ~ In SP (P ++ ":"%char :: fmt.fmtC a)).
      { unfold P. rewrite in_app_iff. intros [H|[H|H]];
          [exact (itoa_no_SP _ H) | discriminate | exact (fmtC_no_SP a Ha H)]. }
      pose proof (colorizeLine_fields (P ++ ":"%char :: fmt.fmtC a)
                    (time.appendInt (time.tDay now) 2)
                    (time.monthAbbrev (time.tMonth now)) (clockField now)
                    (redlog.String lv) (b :: body ++ [LF])
                    H0 (appendInt_no_SP _ _) (monthAbbrev_no_SP _)
                    (clockField_no_SP _) (String_no_SP _)) as E.
      flat. rewrite <- ?app_assoc in E. simpl in E.
      rewrite <- ?app_assoc in E. exact E.
  - rewrite Hb.
    destruct (Ascii.eqb_spec a SP) as [->|Ha].
    + change (fmt.fmtC SP) with [SP].
      pose proof (colorizeLine_fields (P ++ [":"%char]) []
                    (time.appendInt (time.tDay now) 2)
                    (time.monthAbbrev (time.tMonth now)) (clockField now)
                    (redlog.String lv ++ [LF])
                    HP (fun x => x)
                    (appendInt_no_SP _ _) (monthAbbrev_no_SP _)
                    (clockField_no_SP _)) as E.
      unfold paint in E.
      rewrite (colorOf_long (clockField now)) in E by apply clockField_long.
      simpl in E. flat. rewrite <- ?app_assoc in E. simpl in E. exact E.
    + assert (H0 : ~ In SP (P ++ ":"%char :: fmt.fmtC a)).
      { unfold P. rewrite in_app_iff. intros [H|[H|H]];
          [exact (itoa_no_SP _ H) | discriminate | exact (fmtC_no_SP a Ha H)]. }
      pose proof (colorizeLine_five (P ++ ":"%char :: fmt.fmtC a)
                    (time.appendInt (time.tDay now) 2)
                    (time.monthAbbrev (time.tMonth now)) (clockField now)
                    (redlog.String lv ++ [LF])
                    H0 (appendInt_no_SP _ _) (monthAbbrev_no_SP _)
                    (clockField_no_SP _)
                    (LF_suffix_no_SP _ (String_no_SP lv))) as E.
      flat. rewrite <- ?app_assoc in E. simpl in E.
      rewrite <- ?app_assoc in E. exact E.
Qed.

Lemma colorizer_agrees_with_terminal_logger_witness :
  redlog.tty (redlog.New io.Buffer 100) = false /\
  redlog.tty (redlog.New io.Terminal 100) = true /\
  redlog.pid (redlog.New io.Terminal 100) = redlog.pid (redlog.New io.Buffer 100) /\
  strings.TrimRightSpace (str "hello world") <> [] /\
  redlog.colorizeLine (str "100:M 07 Mar 09:05:03.012 * hello world" ++ [LF])
  = str "100:M 07 Mar 09:05:03.012 " ++ ESC :: str "[1m*" ++ ESC ::
    str "[0m hello world" ++ [LF].
Proof.
  assert (H : strings.TrimRightSpace (str "hello world") <> [])
    by (vm_compute; discriminate).
  split; [reflexivity|]. split; [reflexivity|]. split; [reflexivity|].
  split; [exact H|].
  exact (proj1 (colorizer_agrees_with_terminal_logger
                  (redlog.New io.Buffer 100) (redlog.New io.Terminal 100)
                  "M" exampleTime redlog.logLevelNotice (str "hello world")
                  eq_refl eq_refl eq_refl) H).
Defined.

(** The sink after the relay has written the lines [ls] to it. *)
Lemma colorizer_loop pipe d : forall ls i fuel stdout,
  (forall j, (j < List.length ls)%nat ->
             pipe (i + j)%nat = redlog.readLine (nth j ls [])) ->
  pipe (i + List.length ls)%nat = redlog.readErr d ->
  (List.length ls < fuel)%nat ->
  exists out,
    redlog.loop (fun j => redlog.colorizerTurn (pipe j)) fuel i stdout
      = redlog.returned out /\
    io.received out = io.received stdout ++ map redlog.colorizeLine ls /\
    io.answer out = io.answer stdout.
Proof.
  induction ls as [|x ls IH]; intros i fuel stdout Hl He Hf.
  - destruct fuel as [|fuel]; [simpl in Hf; lia|].
    exists stdout. rewrite loop_return.
    + repeat split. simpl. now rewrite app_nil_r.
    + simpl in He. rewrite Nat.add_0_r in He. now rewrite He.
  - destruct fuel as [|fuel]; [simpl in Hf; lia|].
    pose proof (Hl 0%nat ltac:(simpl; lia)) as H0.
    rewrite Nat.add_0_r in H0. simpl nth in H0.
    rewrite (loop_next _ _ fuel i stdout
               (fst (io.Write stdout (redlog.colorizeLine x))))
      by (now rewrite H0).
    destruct (IH (S i) fuel (fst (io.Write stdout (redlog.colorizeLine x))))
      as (out & E & R & A).
    + intros j Hj. specialize (Hl (S j) ltac:(simpl; lia)).
      rewrite Nat.add_succ_r in Hl. exact Hl.
    + simpl in He. rewrite Nat.add_succ_r in He. exact He.
    + simpl in Hf. lia.
    + exists out. split; [exact E|]. split; [|exact A].
      rewrite R. simpl. now rewrite <- app_assoc.
Qed.

(** X10.  The relay of [RedisLogColorizer] writes the lines it reads to
    the standard output, one [Write] each and in order, coloured, until the
    first read that fails; then it returns.  The data that came with the
    failed read, such as a last line without its newline, is not written. *)
Theorem colorizer_relay_stops_at_first_error pipe ls d fuel stdout :
  (forall j, (j < List.length ls)%nat -> pipe j = redlog.readLine (nth j ls [])) ->
  pipe (List.length ls) = redlog.readErr d ->
  (List.length ls < fuel)%nat ->
  exists out,
    redlog.colorizerRelay pipe fuel stdout = redlog.returned out /\
    io.received out = io.received stdout ++ map redlog.colorizeLine ls /\
    io.answer out = io.answer stdout.
Proof.
  intros Hl He Hf. unfold redlog.colorizerRelay.
  apply (colorizer_loop pipe d ls 0 fuel stdout); assumption.
Qed.

(** ** The relay of [GoLogger] *)

Lemma goLogger_loop l pipe clock st :
  redlog.idups st = false ->
  redlog.level st <= redlog.logLevelNotice ->
  forall fuel i s,
    redlog.idups s = false -> redlog.level s = redlog.level st ->
    redlog.pid s = redlog.pid st -> redlog.tty s = redlog.tty st ->
    redlog.app s = redlog.app st ->
    exists s',
      redlog.loop (fun j => redlog.goLoggerTurn l (pipe j) (clock j)) fuel i s
        = redlog.running s' /\
      io.received (redlog.wr s') =
      io.received (redlog.wr s) ++
      relayedLines st (rootTag l (redlog.appOf l st)) pipe clock i fuel.
Proof.
  intros Hi Hl. induction fuel as [|fuel IH]; intros i s Si Sl Sp St Sa.
  - exists s. split; [reflexivity|]. unfold relayedLines. simpl.
    now rewrite app_nil_r.
  - unfold relayedLines. cbn [seq flat_map]. fold (relayedLines st
      (rootTag l (redlog.appOf l st)) pipe clock (S i) fuel).
    destruct (pipe i) as [line|data] eqn:Ep.
    + set (s1 := redlog.Printf l (removelast line) (clock i) s).
      rewrite (loop_next _ _ fuel i s s1)
        by (unfold redlog.goLoggerTurn; now rewrite Ep).
      assert (Hacc : redlog.doesAccept redlog.root redlog.logLevelNotice s = true)
        by (simpl; apply Z.leb_le; lia).
      assert (Es : s1 = redlog.logf redlog.root
                         (rootTag l (redlog.appOf l s)) redlog.logLevelNotice
                         (removelast line) (clock i) s)
        by (unfold s1, redlog.Printf; apply logf_delegates).
      destruct (logf_root_fields s (rootTag l (redlog.appOf l s))
                  redlog.logLevelNotice (removelast line) (clock i) Hacc)
        as (Fl & Fp & Ft & Fi & _).
      rewrite <- Es in Fl, Fp, Ft, Fi.
      assert (Fa : redlog.app s1 = redlog.app s)
        by (destruct (logf_keeps l (redlog.appOf l s) redlog.logLevelNotice
                        (removelast line) (clock i) s) as [(_ & A & _) _];
            exact A).
      destruct (IH (S i) s1) as (s' & E & R); try congruence.
      exists s'. split; [exact E|]. rewrite R, Es.
      rewrite logf_root_written; [|exact Hacc|now rewrite Si].
      simpl. rewrite <- app_assoc. simpl.
      assert (Et : rootTag l (redlog.appOf l s) = rootTag l (redlog.appOf l st))
        by (destruct l; simpl; congruence).
      rewrite Et, (emittedLine_same st s) by assumption.
      reflexivity.
    + rewrite (loop_next _ _ fuel i s s)
        by (unfold redlog.goLoggerTurn; now rewrite Ep).
      destruct (IH (S i) s) as (s' & E & R); try assumption.
      exists s'. split; [exact E | exact R].
Qed.

(** Whatever the reads return, the relay of [l.GoLogger()] is still in
    its loop after any number of turns: no turn executes [return]. *)
Lemma goLogger_loop_runs l pipe clock fuel : forall i s,
  exists s',
    redlog.loop (fun j => redlog.goLoggerTurn l (pipe j) (clock j)) fuel i s
      = redlog.running s'.
Proof.
  induction fuel as [|fuel IH]; intros i s; [now exists s|].
  cbn [redlog.loop]. unfold redlog.goLoggerTurn at 1.
  destruct (pipe i); apply IH.
Qed.

(** X11.  The relay of [l.GoLogger()] never leaves its loop, whatever its
    reads return and whatever the state of the logger.  With duplicate
    suppression off and a threshold of Notice or below, what it has had
    written after any number of reads is one line for each read that did
    not fail, in order: a Notice, under the tag that [l] gives its
    emissions, of the bytes read less the newline.  A read that fails adds
    nothing, and the bytes that came with it are lost. *)
Theorem GoLogger_relay_emits_each_line l pipe clock fuel st :
  (exists st', redlog.goLoggerRelay l pipe clock fuel st = redlog.running st') /\
  (forall st', redlog.goLoggerRelay l pipe clock fuel st <> redlog.returned st') /\
  (redlog.idups st = false ->
   redlog.level st <= redlog.logLevelNotice ->
   exists st',
     redlog.goLoggerRelay l pipe clock fuel st = redlog.running st' /\
     io.received (redlog.wr st') =
     io.received (redlog.wr st) ++
     relayedLines st (rootTag l (redlog.appOf l st)) pipe clock 0 fuel).
Proof.
  unfold redlog.goLoggerRelay.
  destruct (goLogger_loop_runs l pipe clock fuel 0%nat st) as (s' & E).
  split; [now exists s'|]. split; [intros st'; rewrite E; discriminate|].
  intros Hi Hl.
  apply (goLogger_loop l pipe clock st Hi Hl fuel 0%nat st); auto.
Qed.

Lemma GoLogger_relay_emits_each_line_witness :
  let pipe := fun i : nat =>
                match i with
                | 0%nat => redlog.readLine (str "hello" ++ [LF])
                | 1%nat => redlog.readErr (str "par")
                | _ => redlog.readLine (str "bye" ++ [CR; LF])
                end in
  redlog.idups (redlog.New io.Buffer 100) = false /\
  redlog.level (redlog.New io.Buffer 100) <= redlog.logLevelNotice /\
  exists st',
    redlog.goLoggerRelay (redlog.Sub redlog.root "G") pipe
      (fun _ => exampleTime) 3 (redlog.New io.Buffer 100) = redlog.running st' /\
    io.received (redlog.wr st') =
    [str "100:G 07 Mar 09:05:03.012 * hello" ++ [LF];
     str "100:G 07 Mar 09:05:03.012 * bye" ++ [LF]].
Proof.
  assert (H : redlog.level (redlog.New io.Buffer 100) <= redlog.logLevelNotice)
    by (vm_compute; discriminate).
  split; [reflexivity|]. split; [exact H|].
  exact (proj2 (proj2
           (GoLogger_relay_emits_each_line (redlog.Sub redlog.root "G")
              (fun i : nat =>
                 match i with
                 | 0%nat => redlog.readLine (str "hello" ++ [LF])
                 | 1%nat => redlog.readErr (str "par")
                 | _ => redlog.readLine (str "bye" ++ [CR; LF])
                 end)
              (fun _ => exampleTime) 3 (redlog.New io.Buffer 100)))
           eq_refl H).
Defined.

Lemma colorizer_relay_stops_at_first_error_witness :
  let pipe := fun i : nat =>
                match i with
                | 0%nat => redlog.readLine (str "1:M 07 Mar 09:05:03.012 # a" ++ [LF])
                | 1%nat => redlog.readErr (str "1:M 07 Mar 09:05:03.012 # b")
                | _ => redlog.readLine (str "never read" ++ [LF])
                end in
  let ls := [str "1:M 07 Mar 09:05:03.012 # a" ++ [LF]] in
  (forall j, (j < List.length ls)%nat -> pipe j = redlog.readLine (nth j ls [])) /\
  pipe (List.length ls) = redlog.readErr (str "1:M 07 Mar 09:05:03.012 # b") /\
  (List.length ls < 5)%nat /\
  exists out,
    redlog.colorizerRelay pipe 5 io.Terminal = redlog.returned out /\
    io.received out = io.received io.Terminal ++ map redlog.colorizeLine ls /\
    io.answer out = io.answer io.Terminal.
Proof.
  intros pipe ls.
  assert (H1 : forall j, (j < List.length ls)%nat ->
                         pipe j = redlog.readLine (nth j ls [])).
  { intros [|j] Hj; [reflexivity | simpl in Hj; lia]. }
  assert (H3 : (List.length ls < 5)%nat) by (simpl; lia).
  split; [exact H1|]. split; [reflexivity|]. split; [exact H3|].
  exact (colorizer_relay_stops_at_first_error pipe ls
           (str "1:M 07 Mar 09:05:03.012 # b") 5 io.Terminal
           H1 eq_refl H3).
Defined.

(** ** More on the variant without a hierarchy *)

(** X12.  In the variant without a hierarchy [Write], on a logger that
    [New] has made, panics exactly when the sink is not [ioutil.Discard]
    and the filter answers a severity above Fatal: the severity indexes
    the tables of glyphs and colours.  With no filter, or with
    [ioutil.Discard] as the sink, it never panics. *)
Theorem part_000_Write_panics w opts getpid l p now :
  part_000.New w opts getpid = Some l ->
  (part_000.Write l p now = None <->
   exists sink f,
     w = Some sink /\ part_000.filter l = Some f /\
     part_000.levelFatal < snd (f p (part_000.tty l))).
Proof.
  unfold part_000.New.
  set (o := match opts with None => part_000.DefaultOptions | Some o => o end).
  destruct (Z.ltb_spec (part_000.Level o) part_000.levelDebug) as [|H0];
    [discriminate|].
  destruct (Z.ltb_spec part_000.levelWarning (part_000.Level o)) as [|H3];
    [discriminate|].
  cbn [orb]. intros [= <-].
  unfold part_000.levelDebug, part_000.levelWarning, part_000.levelFatal in *.
  unfold part_000.Write. cbn [part_000.filter part_000.tty part_000.level].
  set (t := match w with Some f => io.isTerminal f | None => false end).
  destruct (part_000.OFilter o) as [f|].
  - destruct (f p t) as [[line a] lv] eqn:Ef.
    destruct (Z.leb_spec (part_000.Level o) lv) as [Hle|Hgt].
    + unfold part_000.write. cbn [part_000.wr part_000.pid part_000.tty].
      destruct w as [sink|].
      * destruct (Z.ltb_spec lv 0); [lia|].
        destruct (Z_le_gt_dec lv 4) as [Hs|Hb].
        -- destruct (part_000_levels lv) as (g & c & -> & ->);
             [unfold part_000.levelFatal; lia|].
           split; [discriminate|].
           intros (s' & f' & _ & [= <-] & Hlv). rewrite Ef in Hlv. simpl in Hlv. lia.
        -- assert (E : nth_error part_000.levelColors (Z.to_nat lv) = None)
             by (apply nth_error_None; simpl; lia).
           rewrite E. split; [|reflexivity].
           intros _. exists sink, f. rewrite Ef. simpl. repeat split. lia.
      * split; [discriminate|]. intros (s' & f' & Hw & _). discriminate Hw.
    + split; [discriminate|].
      intros (s' & f' & _ & [= <-] & Hlv). rewrite Ef in Hlv. simpl in Hlv. lia.
  - split.
    + cbn iota beta. destruct (part_000.Level o <=? 0); [|discriminate].
      unfold part_000.write. cbn [part_000.wr].
      destruct w; simpl; discriminate.
    + intros (s' & f' & _ & Hf & _). discriminate Hf.
Qed.

Lemma part_000_Write_panics_witness :
  let o := part_000.mkOptions 2 (Some (fun line _ => (line, "R"%char, 5)))
             "M"%char in
  let l := part_000.mkLogger "M" 2 100
             (Some (fun line _ => (line, "R"%char, 5))) false (Some io.Buffer) in
  part_000.New (Some io.Buffer) (Some o) 100 = Some l /\
  part_000.Write l (str "x") exampleTime = None.
Proof.
  intros o l.
  assert (H : part_000.New (Some io.Buffer) (Some o) 100 = Some l) by reflexivity.
  split; [exact H|].
  apply (proj2 (part_000_Write_panics (Some io.Buffer) (Some o) 100 l
                  (str "x") exampleTime H)).
  exists io.Buffer, (fun line _ => (line, "R"%char, 5)).
  repeat split.
Defined.

(** X13.  In the variant without a hierarchy the function [write], for a
    severity from Debug to Fatal and a sink other than [ioutil.Discard],
    makes one call of the sink with
    [<pid>:<app> <day> <month> <HH:MM:SS.mmm> <glyph> <message>] and a
    newline.  The tag is the byte as it is; the glyph is wrapped in its
    colour on a terminal; the message has lost the spaces, tabs, carriage
    returns and newlines at its end and nothing else, and the space in
    front of it stays even when nothing is left of it. *)
Theorem part_000_write_line_shape l w a lv msg now :
  part_000.wr l = Some w ->
  0 <= lv <= part_000.levelFatal ->
  exists l' glyph color body ws,
    part_000.write l a lv msg now = Some l' /\
    nth_error part_000.levelChars (Z.to_nat lv) = Some glyph /\
    nth_error part_000.levelColors (Z.to_nat lv) = Some color /\
    msg = body ++ ws /\
    Forall (fun c => trailingByte c = true) ws /\
    (forall r c, body = r ++ [c] -> trailingByte c = false) /\
    part_000.wr l' =
    Some (fst (io.Write w
      (fmt.itoa (part_000.pid l) ++ [":"%char; a; SP] ++ time.Format now ++
       [SP] ++
       (if part_000.tty l && negb (gostring_eqb color [])
        then (ESC :: str "[" ++ color ++ str "m") ++ [glyph] ++ (ESC :: str "[0m")
        else [glyph]) ++
       [SP] ++ body ++ [LF]))).
Proof.
  intros Hw Hlv.
  destruct (part_000_levels lv Hlv) as (glyph & color & Eg & Ec).
  destruct (stripRev_spec (rev msg)) as (d & E & F & L).
  unfold part_000.write. rewrite Hw, Eg, Ec.
  destruct (Z.ltb_spec lv 0); [lia|].
  eexists _, glyph, color, (rev (part_000.stripRev (rev msg))), (rev d).
  split; [reflexivity|]. split; [reflexivity|]. split; [reflexivity|].
  split; [|split; [|split]].
  - rewrite <- rev_app_distr, <- E. now rewrite rev_involutive.
  - now apply Forall_rev.
  - intros r c Hb. apply (f_equal (@rev ascii)) in Hb.
    rewrite rev_involutive, rev_app_distr in Hb. simpl in Hb.
    exact (L _ _ Hb).
  - cbn [part_000.wr]. f_equal. f_equal. f_equal.
    destruct (part_000.tty l && negb (gostring_eqb color []));
      rewrite <- ?app_assoc; reflexivity.
Qed.

Lemma part_000_write_line_shape_witness :
  let l := part_000.mkLogger "M" 2 100 None false (Some io.Buffer) in
  part_000.wr l = Some io.Buffer /\
  0 <= 4 <= part_000.levelFatal /\
  exists l' glyph color body ws,
    part_000.write l "M" 4 (str "down" ++ [VT; SP; LF]) exampleTime = Some l' /\
    nth_error part_000.levelChars (Z.to_nat 4) = Some glyph /\
    nth_error part_000.levelColors (Z.to_nat 4) = Some color /\
    str "down" ++ [VT; SP; LF] = body ++ ws /\
    Forall (fun c => trailingByte c = true) ws /\
    (forall r c, body = r ++ [c] -> trailingByte c = false) /\
    part_000.wr l' =
    Some (fst (io.Write io.Buffer
      (fmt.itoa (part_000.pid l) ++ [":"%char; "M"%char; SP] ++
       time.Format exampleTime ++ [SP] ++
       (if part_000.tty l && negb (gostring_eqb color [])
        then (ESC :: str "[" ++ color ++ str "m") ++ [glyph] ++ (ESC :: str "[0m")
        else [glyph]) ++
       [SP] ++ body ++ [LF]))).
Proof.
  intros l.
  assert (H : 0 <= 4 <= part_000.levelFatal)
    by (unfold part_000.levelFatal; lia).
  split; [reflexivity|]. split; [exact H|].
  exact (part_000_write_line_shape l io.Buffer "M" 4
           (str "down" ++ [VT; SP; LF]) exampleTime eq_refl H).
Defined.

(** X14.  In the variant without a hierarchy [Write] with no filter is no
    bypass: it emits the bytes as a Debug message under the zero tag.  So
    above the threshold Debug nothing reaches the sink, and at Debug the
    sink receives a formatted line with the tag byte 0; in both cases all
    of the bytes are reported written. *)
Theorem part_000_Write_without_filter l w p now :
  part_000.filter l = None ->
  part_000.wr l = Some w ->
  (part_000.levelDebug < part_000.level l ->
   part_000.Write l p now = Some (l, (len p, None))) /\
  (part_000.level l <= part_000.levelDebug ->
   exists l',
     part_000.Write l p now = Some (l', (len p, None)) /\
     part_000.wr l' =
     Some (fst (io.Write w
       (fmt.itoa (part_000.pid l) ++ [":"%char; NUL; SP] ++ time.Format now ++
        [SP] ++
        (if part_000.tty l then ESC :: str "[35m." ++ ESC :: str "[0m"
         else str ".") ++
        [SP] ++ rev (part_000.stripRev (rev p)) ++ [LF])))).
Proof.
  intros Hf Hw. unfold part_000.Write, part_000.levelDebug. rewrite Hf.
  split; intros Hl.
  - destruct (Z.leb_spec (part_000.level l) 0); [lia | reflexivity].
  - destruct (Z.leb_spec (part_000.level l) 0); [|lia].
    unfold part_000.write. rewrite Hw. simpl.
    eexists. split; [reflexivity|]. cbn [part_000.wr]. f_equal. f_equal. f_equal.
    destruct (part_000.tty l); flat; reflexivity.
Qed.

Lemma part_000_Write_without_filter_witness :
  let l := part_000.mkLogger "M" 0 100 None false (Some io.Buffer) in
  part_000.filter l = None /\
  part_000.wr l = Some io.Buffer /\
  part_000.level l <= part_000.levelDebug /\
  exists l',
    part_000.Write l (str "raw" ++ [LF]) exampleTime
      = Some (l', (len (str "raw" ++ [LF]), None)) /\
    part_000.wr l' =
    Some (fst (io.Write io.Buffer
      (str "100:" ++ [NUL] ++ str " 07 Mar 09:05:03.012 . raw" ++ [LF]))).
Proof.
  intros l.
  assert (H : part_000.level l <= part_000.levelDebug)
    by (vm_compute; discriminate).
  split; [reflexivity|]. split; [reflexivity|]. split; [exact H|].
  exact (proj2 (part_000_Write_without_filter l io.Buffer (str "raw" ++ [LF])
                  exampleTime eq_refl eq_refl) H).
Defined.

(** ** Fatal messages *)

(** X15.  No threshold silences a fatal message.  In every state that
    calls can reach from [New], [Fatalf], on any logger of the hierarchy,
    emits at Warning, which the threshold accepts whatever it is: unless
    duplicate suppression drops it, the line is handed to the sink before
    the process exits with status 1. *)
Theorem Fatalf_passes_every_threshold cs w getpid l msg now :
  let st := performAll cs (redlog.New w getpid) in
  let tag := rootTag l (redlog.appOf l st) in
  snd (redlog.Fatalf l msg now st) = 1 /\
  redlog.doesAccept l redlog.logLevelWarning st = true /\
  ((redlog.idups st && redlog.isDup st msg now) = false ->
   io.received (redlog.wr (fst (redlog.Fatalf l msg now st))) =
   io.received (redlog.wr st) ++
   [emittedLine st tag now redlog.logLevelWarning msg]).
Proof.
  intros st tag.
  destruct (performAll_keeps cs (redlog.New w getpid) (New_level_range w getpid))
    as [_ L].
  fold st in L.
  assert (Hacc : redlog.doesAccept redlog.root redlog.logLevelWarning st = true)
    by (simpl; apply Z.leb_le; lia).
  split; [reflexivity|]. split; [now rewrite doesAccept_delegates|].
  intros Hd. unfold redlog.Fatalf. cbn [fst].
  rewrite logf_delegates, logf_root_written by assumption.
  reflexivity.
Qed.
